(** * The connection-tracked broadcast relay of [backend/index.js]

    A shallow embedding of the Express + Socket.IO relay server: the
    process-wide [connectedClients] table, the Socket.IO connection handler
    with the per-socket listeners it attaches, the three HTTP routes
    ([GET /api/status], [POST /api/trigger-sign], [GET /api/trigger-sign]) and
    the [server.listen(...).on('error')] handler.

    The handlers are written in a small state-and-exception monad over a
    [World] record holding the table, the console, the sockets of the default
    namespace, the HTTP responses sent and the process status, so that every
    definition can be run on concrete inputs. *)

From Stdlib Require Import ZArith Ascii String List Lia Bool.
From stdpp Require Import base tactics option list strings pretty.

Local Open Scope Z_scope.

#[local] Set Warnings "-register-all".

(** ** JavaScript values carried by request bodies and socket payloads *)

(** A JavaScript string is a sequence of code units; [substring] and [length]
    count code units, here the characters of a [string]. The double quote is
    built from its code. *)
Definition dquote : string := String (ascii_of_nat 34) EmptyString.

(** The values [express.json()] and the Socket.IO parser hand to the handlers:
    JSON data (plus [undefined] for what is absent). Numbers are the
    integer-valued ones below 10^21 in magnitude, which print as their
    decimal digits; objects list their own properties in order. *)
Inductive JsValue : Type :=
  | JUndefined
  | JNull
  | JBool (b : bool)
  | JNum (n : Z)
  | JStr (s : string)
  | JArr (items : list JsValue)
  | JObj (props : list (string * JsValue)).

(** Errors are objects with a [name] and a [message]. *)
Inductive ErrorName := TypeError | RangeError | PlainError.

Record JsError := mkError { err_name : ErrorName; err_message : string }.

(** The outcome of evaluating an expression or a block. *)
Inductive Completion (A : Type) : Type :=
  | Normal (a : A)
  | Throw (e : JsError).
Arguments Normal {A} a.
Arguments Throw {A} e.

Definition is_throw {A} (c : Completion A) : bool :=
  match c with Throw _ => true | Normal _ => false end.

Definition cbind {A B} (c : Completion A) (k : A -> Completion B) : Completion B :=
  match c with
  | Normal a => k a
  | Throw e => Throw e
  end.

(** ToBoolean. *)
Definition truthy (v : JsValue) : bool :=
  match v with
  | JUndefined | JNull => false
  | JBool b => b
  | JNum n => negb (n =? 0)
  | JStr s => negb (String.eqb s EmptyString)
  | JArr _ | JObj _ => true
  end.

Definition nullish (v : JsValue) : bool :=
  match v with
  | JUndefined | JNull => true
  | _ => false
  end.

Fixpoint own_property (props : list (string * JsValue)) (k : string) : option JsValue :=
  match props with
  | [] => None
  | (k', v) :: rest => if String.eqb k' k then Some v else own_property rest k
  end.

Definition cannot_read (base key : string) : JsError :=
  mkError TypeError
    ("Cannot read properties of " +:+ base +:+ " (reading '" +:+ key +:+ "')").

(** [v.key] for the data properties the handlers read ([message], [account],
    [signature]): none of them is supplied by a built-in prototype, so the
    read yields the own property of an object and [undefined] on every other
    non-nullish value; on [undefined] and [null] it throws. *)
Definition get_prop (v : JsValue) (key : string) : Completion JsValue :=
  match v with
  | JUndefined => Throw (cannot_read "undefined" key)
  | JNull => Throw (cannot_read "null" key)
  | JObj props => Normal (default JUndefined (own_property props key))
  | _ => Normal JUndefined
  end.

Definition cannot_convert : JsError :=
  mkError TypeError "Cannot convert object to primitive value".

Definition join_with (sep : string) (parts : list string) : string :=
  match parts with
  | [] => EmptyString
  | p :: rest => fold_left (fun acc q => acc +:+ sep +:+ q) rest p
  end.

(** ToString, as a template literal applies it to each substitution. A parsed
    object never holds a callable, so an own [toString] disables the inherited
    one and the inherited [valueOf] returns the object itself: the conversion
    throws. An array joins its elements with commas, [null] and [undefined]
    giving the empty string. *)
Fixpoint to_string (v : JsValue) : Completion string :=
  match v with
  | JUndefined => Normal "undefined"
  | JNull => Normal "null"
  | JBool true => Normal "true"
  | JBool false => Normal "false"
  | JNum n => Normal (pretty n)
  | JStr s => Normal s
  | JArr items =>
      let fix elements (l : list JsValue) : Completion (list string) :=
        match l with
        | [] => Normal []
        | x :: rest =>
            cbind (if nullish x then Normal EmptyString else to_string x) (fun s =>
            cbind (elements rest) (fun ss => Normal (s :: ss)))
        end in
      cbind (elements items) (fun ss => Normal (join_with "," ss))
  | JObj props =>
      match own_property props "toString" with
      | Some _ => Throw cannot_convert
      | None => Normal "[object Object]"
      end
  end.

(** [s.substring(start, end)]: both indices are clamped to [0, length] and
    swapped when out of order. *)
Definition js_length (s : string) : Z := Z.of_nat (String.length s).

Definition clamp (s : string) (i : Z) : Z := Z.max 0 (Z.min i (js_length s)).

Definition js_substring (s : string) (start stop : Z) : string :=
  let a := clamp s start in
  let b := clamp s stop in
  let lo := Z.min a b in
  let hi := Z.max a b in
  String.substring (Z.to_nat lo) (Z.to_nat (hi - lo)) s.

Definition not_a_function (expr : string) : JsError :=
  mkError TypeError (expr +:+ " is not a function").

(** The receiver of a [.substring(...)] call on a payload value: only a
    string has a callable [substring]; on any other parsed value the property
    is missing or is data, and the call throws. *)
Definition string_receiver (expr : string) (v : JsValue) : Completion string :=
  match v with
  | JStr s => Normal s
  | JUndefined => Throw (cannot_read "undefined" "substring")
  | JNull => Throw (cannot_read "null" "substring")
  | _ => Throw (not_a_function (expr +:+ ".substring"))
  end.

(** [v?.substring(...)]: [undefined] when [v] is nullish, the call otherwise.
    [args] computes the two indices from the string. *)
Definition opt_substring (expr : string) (v : JsValue) (args : string -> Z * Z)
  : Completion JsValue :=
  if nullish v then Normal JUndefined
  else match v with
       | JStr s => Normal (JStr (js_substring s (fst (args s)) (snd (args s))))
       | _ => Throw (not_a_function (expr +:+ "?.substring"))
       end.

(** ** Dates *)

(** A [Date] is its time value: milliseconds since the epoch. *)
Definition pad (width : nat) (n : Z) : string :=
  let digits := pretty (Z.abs n) in
  String.concat EmptyString (repeat "0" (width - String.length digits)) +:+ digits.

(** Proleptic Gregorian date of a day number counted from 1970-01-01. *)
Definition civil_from_days (days : Z) : Z * Z * Z :=
  let z := days + 719468 in
  let era := z / 146097 in
  let doe := z - era * 146097 in
  let yoe := (doe - doe / 1460 + doe / 36524 - doe / 146096) / 365 in
  let doy := doe - (365 * yoe + yoe / 4 - yoe / 100) in
  let mp := (5 * doy + 2) / 153 in
  let d := doy - (153 * mp + 2) / 5 + 1 in
  let m := if mp <? 10 then mp + 3 else mp - 9 in
  let y := yoe + era * 400 + (if m <=? 2 then 1 else 0) in
  (y, m, d).

(** [Date.prototype.toISOString] of a valid time value. *)
Definition toISOString (t : Z) : string :=
  let '(y, m, d) := civil_from_days (t / 86400000) in
  let ms := t mod 86400000 in
  let year :=
    if (0 <=? y) && (y <=? 9999) then pad 4 y
    else (if y <? 0 then "-" else "+") +:+ pad 6 y in
  year +:+ "-" +:+ pad 2 m +:+ "-" +:+ pad 2 d +:+ "T" +:+
  pad 2 (ms / 3600000) +:+ ":" +:+ pad 2 (ms / 60000 mod 60) +:+ ":" +:+
  pad 2 (ms / 1000 mod 60) +:+ "." +:+ pad 3 (ms mod 1000) +:+ "Z".

(** ** The [Map] holding the connected clients *)

(** A JavaScript [Map] iterates in insertion order, and [keys()] and
    [values()] are read in that order by the routes, so the table is kept as
    the list of its entries, oldest first. *)
Module JsMap.
Section Ops.
Context {V : Type}.

Definition t := list (string * V).

Definition empty : t := [].

Definition has (m : t) (k : string) : bool :=
  existsb (fun e => String.eqb (fst e) k) m.

(** [set] overwrites the value of a present key in place and appends a
    new entry otherwise. *)
Fixpoint set (m : t) (k : string) (v : V) : t :=
  match m with
  | [] => [(k, v)]
  | (k', v') :: rest =>
      if String.eqb k' k then (k', v) :: rest else (k', v') :: set rest k v
  end.

(** [delete] drops the entry of the key, if any. *)
Fixpoint delete (m : t) (k : string) : t :=
  match m with
  | [] => []
  | (k', v') :: rest =>
      if String.eqb k' k then delete rest k else (k', v') :: delete rest k
  end.

Definition size (m : t) : nat := length m.

Definition keys (m : t) : list string := map fst m.

Definition values (m : t) : list V := map snd m.
End Ops.
Arguments t : clear implicits.
End JsMap.

(** ** The world the handlers run in *)

(** [socket.handshake]: the remote address and the [user-agent] header, which
    may be missing. *)
Record Handshake := mkHandshake {
  address : string;
  user_agent : option string
}.

(** The [clientInfo] object stored in the table; [connectedAt] is a [Date]. *)
Record ClientInfo := mkClientInfo {
  client_id : string;
  ip : string;
  userAgent : option string;
  connectedAt : Z
}.

(** Events emitted by the server to a client. *)
Inductive ServerEvent :=
  | serverMessage (message : string)
  | triggerSign (message : JsValue) (id : string).

(** A socket of the default namespace: its [id] and handshake never change;
    [listeners] are the event names given to [socket.on]; [received] are the
    events delivered to the client, oldest first. *)
Record Socket := mkSocket {
  sock_id : string;
  handshake : Handshake;
  connected : bool;
  listeners : list string;
  received : list ServerEvent
}.

Inductive Stream := Stdout | Stderr.

Inductive Printed :=
  | PStr (s : string)
  | PVal (v : JsValue)
  | PErr (e : JsError).

(** Bodies given to [res.json]. *)
Record ClientSummary := mkSummary {
  summary_id : string;
  connectedSince : Z
}.

Inductive Body :=
  | StatusBody (status : string) (connectedClients : nat) (clients : list ClientSummary)
  | TriggerSent (success : bool) (message : string) (clients : list string)
      (messageId : string)
  | Failure (success : bool) (message : string) (error : option string)
  | ExpressError (e : JsError).

Record Response := mkResponse {
  status_code : Z;
  body : Body
}.

Inductive Process :=
  | Running
  | Exited (code : Z)
  | Crashed (e : JsError).

(** [connectedClients] is the table of line 28; [sockets] holds every socket
    the engine created, a socket's handle being its position; [clock] gives
    the time read by the n-th use of [Date]; [env_PORT] is
    [process.env.PORT]. *)
Record World := mkWorld {
  connectedClients : JsMap.t ClientInfo;
  sockets : list Socket;
  console : list (Stream * list Printed);
  responses : list Response;
  process : Process;
  clock : nat -> Z;
  ticks : nat;
  env_PORT : option string
}.

Definition initial (clock : nat -> Z) (env_PORT : option string) : World :=
  mkWorld JsMap.empty [] [] [] Running clock 0 env_PORT.

(** ** The monad of handlers: state and exceptions *)

Definition M (A : Type) : Type := World -> Completion A * World.

Definition ret {A} (a : A) : M A := fun w => (Normal a, w).

Definition bind {A B} (m : M A) (k : A -> M B) : M B :=
  fun w =>
    match m w with
    | (Normal a, w') => k a w'
    | (Throw e, w') => (Throw e, w')
    end.

Definition lift {A} (c : Completion A) : M A := fun w => (c, w).

(** [try { body } catch (error) { handler }]: what [body] did before it threw
    stays done. *)
Definition try_catch {A} (body : M A) (handler : JsError -> M A) : M A :=
  fun w =>
    match body w with
    | (Normal a, w') => (Normal a, w')
    | (Throw e, w') => handler e w'
    end.

Declare Scope js_scope.
Delimit Scope js_scope with js.
Notation "x <- m ;; k" := (bind m (fun x => k))
  (at level 100, m at next level, right associativity) : js_scope.
Notation "m ;; k" := (bind m (fun _ => k))
  (at level 100, right associativity) : js_scope.
Local Open Scope js_scope.

Definition with_clients (f : JsMap.t ClientInfo -> JsMap.t ClientInfo) (w : World) : World :=
  mkWorld (f (connectedClients w)) (sockets w) (console w) (responses w)
    (process w) (clock w) (ticks w) (env_PORT w).

Definition with_sockets (f : list Socket -> list Socket) (w : World) : World :=
  mkWorld (connectedClients w) (f (sockets w)) (console w) (responses w)
    (process w) (clock w) (ticks w) (env_PORT w).

Definition with_console (f : list (Stream * list Printed) -> list (Stream * list Printed))
  (w : World) : World :=
  mkWorld (connectedClients w) (sockets w) (f (console w)) (responses w)
    (process w) (clock w) (ticks w) (env_PORT w).

Definition with_responses (f : list Response -> list Response) (w : World) : World :=
  mkWorld (connectedClients w) (sockets w) (console w) (f (responses w))
    (process w) (clock w) (ticks w) (env_PORT w).

Definition with_process (p : Process) (w : World) : World :=
  mkWorld (connectedClients w) (sockets w) (console w) (responses w)
    p (clock w) (ticks w) (env_PORT w).

Definition with_ticks (n : nat) (w : World) : World :=
  mkWorld (connectedClients w) (sockets w) (console w) (responses w)
    (process w) (clock w) n (env_PORT w).

Definition console_log (args : list Printed) : M unit :=
  fun w => (Normal tt, with_console (fun c => c ++ [(Stdout, args)]) w).

Definition console_error (args : list Printed) : M unit :=
  fun w => (Normal tt, with_console (fun c => c ++ [(Stderr, args)]) w).

(** [Date.now()] and the time value of [new Date()]. *)
Definition Date_now : M Z :=
  fun w => (Normal (clock w (ticks w)), with_ticks (S (ticks w)) w).

Definition clients_size : M nat := fun w => (Normal (JsMap.size (connectedClients w)), w).

Definition clients_has (k : string) : M bool :=
  fun w => (Normal (JsMap.has (connectedClients w) k), w).

Definition clients_set (k : string) (v : ClientInfo) : M unit :=
  fun w => (Normal tt, with_clients (fun m => JsMap.set m k v) w).

Definition clients_delete (k : string) : M unit :=
  fun w => (Normal tt, with_clients (fun m => JsMap.delete m k) w).

Definition clients_keys : M (list string) :=
  fun w => (Normal (JsMap.keys (connectedClients w)), w).

Definition clients_values : M (list ClientInfo) :=
  fun w => (Normal (JsMap.values (connectedClients w)), w).

Definition deliver (ev : ServerEvent) (s : Socket) : Socket :=
  if connected s
  then mkSocket (sock_id s) (handshake s) (connected s) (listeners s) (received s ++ [ev])
  else s.

Definition add_listener (name : string) (s : Socket) : Socket :=
  mkSocket (sock_id s) (handshake s) (connected s) (listeners s ++ [name]) (received s).

Definition close (s : Socket) : Socket :=
  mkSocket (sock_id s) (handshake s) false (listeners s) (received s).

(** [socket.emit(...)] on the socket with handle [h]. *)
Definition socket_emit (h : nat) (ev : ServerEvent) : M unit :=
  fun w => (Normal tt, with_sockets (alter (deliver ev) h) w).

(** [io.emit(...)]: one packet to every connected socket of the namespace. *)
Definition io_emit (ev : ServerEvent) : M unit :=
  fun w => (Normal tt, with_sockets (fmap (deliver ev)) w).

(** [socket.on(name, ...)]. *)
Definition socket_on (h : nat) (name : string) : M unit :=
  fun w => (Normal tt, with_sockets (alter (add_listener name) h) w).

(** [res.status(code).json(body)]. *)
Definition res_json (code : Z) (b : Body) : M unit :=
  fun w => (Normal tt, with_responses (fun r => r ++ [mkResponse code b]) w).

Definition process_exit (code : Z) : M unit :=
  fun w => (Normal tt, with_process (Exited code) w).

(** ** The handlers of [backend/index.js] *)

Definition newline : string := String (ascii_of_nat 10) EmptyString.

(** [const PORT = process.env.PORT || 3000], as it prints. *)
Definition PORT (w : World) : string :=
  match env_PORT w with
  | Some p => if String.eqb p EmptyString then "3000" else p
  | None => "3000"
  end.

(** Lines 76-78: the text of the acknowledgement of a message [s]. *)
Definition ack_text (s : string) : string :=
  "Signature received for message: " +:+ dquote +:+
  js_substring s 0 30 +:+
  (if js_length s >? 30 then "..." else EmptyString) +:+ dquote.

(** [data.message.length] is read after [data.message.substring(0, 30)] has
    returned, hence on the same string. *)
Definition acknowledgement (data : JsValue) : Completion string :=
  cbind (get_prop data "message") (fun message =>
  cbind (string_receiver "data.message" message) (fun s =>
  Normal (ack_text s))).

(** Line 73: the two ends of the signature, for the console. *)
Definition signature_digest (data : JsValue) : Completion string :=
  cbind (get_prop data "signature") (fun signature =>
  cbind (opt_substring "data.signature" signature (fun _ => (0, 20))) (fun head =>
  cbind (to_string head) (fun head_text =>
  cbind (opt_substring "data.signature" signature
           (fun s => (js_length s - 10, js_length s))) (fun tail =>
  cbind (to_string tail) (fun tail_text =>
  Normal ("- Signature: " +:+ head_text +:+ "..." +:+ tail_text)))))).

(** Lines 50-54: [socket.on('disconnect', ...)]. *)
Definition on_disconnect (socket : Socket) (reason : string) : M unit :=
  console_log [PStr ("Client disconnected: " +:+ sock_id socket +:+
                     " (Reason: " +:+ reason +:+ ")")] ;;
  clients_delete (sock_id socket) ;;
  size <- clients_size ;;
  console_log [PStr ("Remaining clients: " +:+ pretty size)].

(** Lines 57-61: [socket.on('error', ...)]. *)
Definition on_error (socket : Socket) (error : JsError) : M unit :=
  console_error [PStr ("Socket error for " +:+ sock_id socket +:+ ":"); PErr error] ;;
  clients_delete (sock_id socket) ;;
  size <- clients_size ;;
  console_log [PStr ("Remaining clients after error: " +:+ pretty size)].

(** Lines 64-66: [socket.on('clientMessage', ...)]. *)
Definition on_clientMessage (socket : Socket) (data : JsValue) : M unit :=
  console_log [PStr ("Message from client " +:+ sock_id socket +:+ ":"); PVal data].

(** Lines 69-79: [socket.on('signMessageResult', ...)]. *)
Definition on_signMessageResult (h : nat) (socket : Socket) (data : JsValue) : M unit :=
  console_log [PStr ("Sign message result from " +:+ sock_id socket +:+ ":")] ;;
  account <- lift (get_prop data "account") ;;
  account_text <- lift (to_string account) ;;
  console_log [PStr ("- Account: " +:+ account_text)] ;;
  message <- lift (get_prop data "message") ;;
  message_text <- lift (to_string message) ;;
  console_log [PStr ("- Message: " +:+ message_text)] ;;
  digest <- lift (signature_digest data) ;;
  console_log [PStr digest] ;;
  ack <- lift (acknowledgement data) ;;
  socket_emit h (serverMessage ack).

(** Lines 31-85: [io.on('connection', ...)], for the socket with handle [h]. *)
Definition on_connection (h : nat) (socket : Socket) : M unit :=
  now <- Date_now ;;
  let clientInfo :=
    mkClientInfo (sock_id socket) (address (handshake socket))
      (user_agent (handshake socket)) now in
  console_log [PStr ("Client connected: " +:+ sock_id socket +:+
                     " (IP: " +:+ ip clientInfo +:+ ")")] ;;
  size <- clients_size ;;
  console_log [PStr ("Connected clients: " +:+ pretty size)] ;;
  present <- clients_has (sock_id socket) ;;
  if negb present then
    clients_set (sock_id socket) clientInfo ;;
    socket_emit h (serverMessage "Connected to MetaMask automation server") ;;
    socket_on h "disconnect" ;;
    socket_on h "error" ;;
    socket_on h "clientMessage" ;;
    socket_on h "signMessageResult"
  else
    console_log [PStr ("Duplicate connection attempt from " +:+ sock_id socket)].

(** Lines 88-102: [GET /api/status]. *)
Definition get_status : M unit :=
  console_log [PStr "Status endpoint hit"] ;;
  clients <- clients_values ;;
  let clientList := map (fun client => mkSummary (client_id client) (connectedAt client)) clients in
  size <- clients_size ;;
  res_json 200 (StatusBody "online" size clientList).

Definition default_message : string := "Please sign this message from the server.".

(** Lines 113-116: the message of a POST, from [req.body]. *)
Definition post_message (req_body : JsValue) : Completion JsValue :=
  cbind (if truthy req_body then get_prop req_body "message" else Normal req_body) (fun test =>
  if truthy test then get_prop req_body "message" else Normal (JStr default_message)).

(** Lines 119-138 and 156-175: log, broadcast and answer. *)
Definition broadcast (message : JsValue) : M unit :=
  size <- clients_size ;;
  message_text <- lift (to_string message) ;;
  console_log [PStr ("Sending message to " +:+ pretty size +:+ " client(s): " +:+ message_text)] ;;
  keys <- clients_keys ;;
  let clientIds := join_with ", " keys in
  console_log [PStr ("Client IDs receiving message: " +:+ clientIds)] ;;
  now <- Date_now ;;
  let messageId := pretty now in
  io_emit (triggerSign message messageId) ;;
  console_log [PStr ("Message ID " +:+ messageId +:+ " broadcast to all clients")] ;;
  size' <- clients_size ;;
  keys' <- clients_keys ;;
  res_json 200 (TriggerSent true ("Sign request sent to " +:+ pretty size' +:+ " client(s)")
                  keys' messageId).

(** Lines 139-142 and 176-179: the [catch] blocks. *)
Definition server_error (method : string) (error : JsError) : M unit :=
  console_error [PStr ("Error in trigger-sign (" +:+ method +:+ "):"); PErr error] ;;
  res_json 500 (Failure false "Server error" (Some (err_message error))).

Definition no_clients : M unit :=
  console_log [PStr "No clients connected"] ;;
  res_json 404 (Failure false "No clients connected" None).

(** Lines 105-143: [POST /api/trigger-sign]. *)
Definition post_trigger_sign (req_body : JsValue) : M unit :=
  console_log [PStr "Trigger sign endpoint hit (POST)"] ;;
  size <- clients_size ;;
  if Nat.eqb size 0 then no_clients
  else
    message <- lift (post_message req_body) ;;
    try_catch (broadcast message) (server_error "POST").

(** Line 155: the message of a GET, built inside the [try]. *)
Definition get_message : M JsValue :=
  now <- Date_now ;;
  ret (JStr ("Please sign this message triggered via GET from the frontend at " +:+
             toISOString now)).

(** Lines 146-180: [GET /api/trigger-sign]. *)
Definition get_trigger_sign : M unit :=
  console_log [PStr "Trigger sign endpoint hit (GET)"] ;;
  size <- clients_size ;;
  if Nat.eqb size 0 then no_clients
  else
    try_catch (message <- get_message ;; broadcast message) (server_error "GET").

(** Reading the constant [PORT]. *)
Definition the_PORT : M string := fun w => (Normal (PORT w), w).

(** Lines 184-186: the [listen] callback. *)
Definition on_listening : M unit :=
  port <- the_PORT ;;
  console_log [PStr ("Server is running on port " +:+ port)] ;;
  console_log [PStr ("Open http://localhost:" +:+ port +:+ " to view the MetaMask demo")].

(** Lines 187-197: [.on('error', ...)] of the HTTP server; [code] is
    [error.code]. *)
Definition on_server_error (code : option string) (error : JsError) : M unit :=
  port <- the_PORT ;;
  if bool_decide (code = Some "EADDRINUSE") then
    console_error [PStr ("Port " +:+ port +:+ " is already in use. Please:" +:+ newline +:+
                         "1. Stop any other process using port " +:+ port +:+ ", or" +:+ newline +:+
                         "2. Use a different port by setting the PORT environment variable")] ;;
    process_exit 1
  else
    console_error [PStr "Error starting server:"; PErr error] ;;
    process_exit 1.

(** ** Events and their dispatch *)

(** What the runtime can deliver to the program: Socket.IO connections,
    disconnections, socket errors and client packets, the three routes, and
    the two outcomes of [server.listen]. Sockets are named by handle. A
    [Packet] stands for a client event that goes to the [clientMessage] or
    the [signMessageResult] listener; every run of the listener of lines
    57-61, whatever set it off, is a [SocketError]. *)
Inductive Event :=
  | Connection (id : string) (hs : Handshake)
  | Disconnect (h : nat) (reason : string)
  | SocketError (h : nat) (error : JsError)
  | Packet (h : nat) (name : string) (data : JsValue)
  | GetStatus
  | PostTriggerSign (req_body : JsValue)
  | GetTriggerSign
  | Listening
  | ServerError (code : option string) (error : JsError).

(** An exception escaping a listener is uncaught and ends the process. *)
Definition settle (r : Completion unit * World) : World :=
  match r with
  | (Normal _, w) => w
  | (Throw e, w) => with_process (Crashed e) w
  end.

(** An exception escaping a route is answered by Express with a 500. *)
Definition route (r : Completion unit * World) : World :=
  match r with
  | (Normal _, w) => w
  | (Throw e, w) => with_responses (fun l => l ++ [mkResponse 500 (ExpressError e)]) w
  end.

Definition listens (socket : Socket) (name : string) : bool :=
  bool_decide (name ∈ listeners socket).

Definition step (ev : Event) (w : World) : World :=
  match process w with
  | Running =>
      match ev with
      | Connection id hs =>
          let socket := mkSocket id hs true [] [] in
          settle (on_connection (length (sockets w)) socket
                    (with_sockets (fun l => l ++ [socket]) w))
      | Disconnect h reason =>
          match sockets w !! h with
          | Some socket =>
              if connected socket then
                let w' := with_sockets (alter close h) w in
                if listens socket "disconnect"
                then settle (on_disconnect socket reason w')
                else w'
              else w
          | None => w
          end
      | SocketError h error =>
          match sockets w !! h with
          | Some socket =>
              if connected socket && listens socket "error"
              then settle (on_error socket error w)
              else w
          | None => w
          end
      | Packet h name data =>
          match sockets w !! h with
          | Some socket =>
              if connected socket && listens socket name then
                if String.eqb name "clientMessage"
                then settle (on_clientMessage socket data w)
                else if String.eqb name "signMessageResult"
                then settle (on_signMessageResult h socket data w)
                else w
              else w
          | None => w
          end
      | GetStatus => route (get_status w)
      | PostTriggerSign req_body => route (post_trigger_sign req_body w)
      | GetTriggerSign => route (get_trigger_sign w)
      | Listening => settle (on_listening w)
      | ServerError code error => settle (on_server_error code error w)
      end
  | _ => w
  end.

Definition run (evs : list Event) (w : World) : World :=
  fold_left (fun w ev => step ev w) evs w.

(** The worlds the server can be in: those an event sequence leads to from
    the start of the process. *)
Definition reachable (w : World) : Prop :=
  exists clock env evs, w = run evs (initial clock env).

(** A socket that is connected, carries this id and had its listeners
    attached by the connection handler. *)
Definition serves (socket : Socket) (id : string) : Prop :=
  sock_id socket = id /\ connected socket = true /\ listens socket "disconnect" = true.

(** Every record of the table belongs to a live socket. *)
Definition registered_live (w : World) : Prop :=
  forall id, id ∈ JsMap.keys (connectedClients w) ->
    exists h socket, sockets w !! h = Some socket /\ serves socket id.

(** The table holds at most one record per id. *)
Definition one_record_per_id (w : World) : Prop :=
  NoDup (JsMap.keys (connectedClients w)).

(** ** The message a POST broadcasts *)

(** [req.body.message] where the read does not throw. *)
Definition message_field (req_body : JsValue) : JsValue :=
  match get_prop req_body "message" with
  | Normal v => v
  | Throw _ => JUndefined
  end.

(** The outcome of lines 113-116 in closed form. *)
Definition chosen_message (req_body : JsValue) : JsValue :=
  if truthy req_body && truthy (message_field req_body)
  then message_field req_body
  else JStr default_message.

(** The two trigger requests. *)
Definition is_trigger (ev : Event) : bool :=
  match ev with
  | PostTriggerSign _ | GetTriggerSign => true
  | _ => false
  end.

(** The three HTTP requests. *)
Definition is_http (ev : Event) : bool :=
  match ev with
  | GetStatus | PostTriggerSign _ | GetTriggerSign => true
  | _ => false
  end.

(** The world in which a trigger route reaches its size test: the first
    line of the route has been logged. *)
Definition entered (method : string) (w : World) : World :=
  snd (console_log [PStr ("Trigger sign endpoint hit (" +:+ method +:+ ")")] w).

(** The message and the [messageId] of a trigger request, read off the routes:
    a POST reads the clock once, for the id; a GET reads it for the message
    and again for the id. *)
Definition trigger_message (ev : Event) (w : World) : JsValue :=
  match ev with
  | PostTriggerSign req_body => chosen_message req_body
  | _ => JStr ("Please sign this message triggered via GET from the frontend at " +:+
               toISOString (clock w (ticks w)))
  end.

Definition trigger_id (ev : Event) (w : World) : string :=
  match ev with
  | PostTriggerSign _ => pretty (clock w (ticks w))
  | _ => pretty (clock w (S (ticks w)))
  end.

(** The two ways a socket's record is removed. *)
Inductive Removal :=
  | ByDisconnect (reason : string)
  | ByError (error : JsError).

Definition remove_by (socket : Socket) (r : Removal) : M unit :=
  match r with
  | ByDisconnect reason => on_disconnect socket reason
  | ByError error => on_error socket error
  end.

(** The answer a status request would get in a world. *)
Definition status_answer (w : World) : option Response :=
  last (responses (step GetStatus w)).

(** A value a template literal can print. *)
Definition printable (v : JsValue) : Prop := exists text, to_string v = Normal text.

(** A value [?.substring] accepts: nothing, or a string. *)
Definition absent_or_string (v : JsValue) : Prop :=
  match v with
  | JUndefined | JNull | JStr _ => True
  | _ => False
  end.

(** What the server's error handler prints before it exits. *)
Definition exit_diagnostic (port : string) (code : option string) (error : JsError)
  : list Printed :=
  if bool_decide (code = Some "EADDRINUSE") then
    [PStr ("Port " +:+ port +:+ " is already in use. Please:" +:+ newline +:+
           "1. Stop any other process using port " +:+ port +:+ ", or" +:+ newline +:+
           "2. Use a different port by setting the PORT environment variable")]
  else [PStr "Error starting server:"; PErr error].

(** ** Sample worlds *)

Definition sample_clock : nat -> Z :=
  fun n => nth n [1700000000000; 1700000000100; 1700000000200] 1700000000300.

Definition sample_handshake : Handshake := mkHandshake "10.0.0.7" (Some "Mozilla/5.0").

Definition nobody : World := initial sample_clock None.

Definition one_client : World := run [Listening; Connection "A" sample_handshake] nobody.

Definition two_clients : World :=
  run [Listening; Connection "A" sample_handshake; Connection "B" sample_handshake] nobody.

(** ** Relations between the world before and after a handler *)

(** A computation respects [R] when every run relates the world it starts
    in to the world it leaves, whether it returns or throws. *)
Definition respects (R : World -> World -> Prop) {A} (m : M A) : Prop :=
  forall w, R w (snd (m w)).

(** The table is left as it was. *)
Definition same_clients (w w' : World) : Prop :=
  connectedClients w' = connectedClients w.

(** The process status is left as it was. *)
Definition same_process (w w' : World) : Prop :=
  process w' = process w.

(** Sockets keep their handle, id and connection state, and lose no
    listener. *)
Definition links (l l' : list Socket) : Prop :=
  length l' = length l /\
  forall h s, l !! h = Some s ->
    exists s', l' !! h = Some s' /\ sock_id s' = sock_id s /\
               connected s' = connected s /\
               (forall name, name ∈ listeners s -> name ∈ listeners s').

Definition same_links (w w' : World) : Prop := links (sockets w) (sockets w').

(** The socket a connection event creates, as the handler leaves it. *)
Definition fresh_socket (id : string) (hs : Handshake) : Socket :=
  mkSocket id hs true [] [].

Definition welcomed_socket (id : string) (hs : Handshake) : Socket :=
  mkSocket id hs true ["disconnect"; "error"; "clientMessage"; "signMessageResult"]
    [serverMessage "Connected to MetaMask automation server"].

(** The events whose handlers write to the table. *)
Definition mutates_registry (ev : Event) : bool :=
  match ev with
  | Connection _ _ | Disconnect _ _ | SocketError _ _ => true
  | _ => false
  end.

(** What every reachable world satisfies. *)
Definition invariant (w : World) : Prop :=
  one_record_per_id w /\ registered_live w.

(** ** The trigger routes over the library's [io.emit] *)

(** Lines 119-138 and 156-175 with the call of [io.emit] (lines 130 and 167)
    left to the library: [emit] is any behaviour of Socket.IO's broadcast,
    one that throws included; [broadcast] is the case [io_emit]. *)
Definition broadcast_with (emit : ServerEvent -> M unit) (message : JsValue) : M unit :=
  size <- clients_size ;;
  message_text <- lift (to_string message) ;;
  console_log [PStr ("Sending message to " +:+ pretty size +:+ " client(s): " +:+ message_text)] ;;
  keys <- clients_keys ;;
  let clientIds := join_with ", " keys in
  console_log [PStr ("Client IDs receiving message: " +:+ clientIds)] ;;
  now <- Date_now ;;
  let messageId := pretty now in
  emit (triggerSign message messageId) ;;
  console_log [PStr ("Message ID " +:+ messageId +:+ " broadcast to all clients")] ;;
  size' <- clients_size ;;
  keys' <- clients_keys ;;
  res_json 200 (TriggerSent true ("Sign request sent to " +:+ pretty size' +:+ " client(s)")
                  keys' messageId).

(** Lines 105-143 over [emit]. *)
Definition post_trigger_sign_with (emit : ServerEvent -> M unit) (req_body : JsValue)
  : M unit :=
  console_log [PStr "Trigger sign endpoint hit (POST)"] ;;
  size <- clients_size ;;
  if Nat.eqb size 0 then no_clients
  else
    message <- lift (post_message req_body) ;;
    try_catch (broadcast_with emit message) (server_error "POST").

(** Lines 146-180 over [emit]. *)
Definition get_trigger_sign_with (emit : ServerEvent -> M unit) : M unit :=
  console_log [PStr "Trigger sign endpoint hit (GET)"] ;;
  size <- clients_size ;;
  if Nat.eqb size 0 then no_clients
  else
    try_catch (message <- get_message ;; broadcast_with emit message) (server_error "GET").

(** What no behaviour of the library's broadcast does: write to the table of
    line 28, end the process, or answer the request. It may deliver to some
    sockets and not to others before it throws. *)
Definition library_emit (emit : ServerEvent -> M unit) : Prop :=
  forall ev w,
    connectedClients (snd (emit ev w)) = connectedClients w /\
    process (snd (emit ev w)) = process w /\
    responses (snd (emit ev w)) = responses w.

(** A broadcast that fails: the library throws before it delivers. *)
Definition failing_emit (e : JsError) (ev : ServerEvent) : M unit :=
  fun w => (Throw e, w).

(** ** Further vocabulary for the relay *)

(** The events of a list of sessions connecting one after the other. *)
Definition connections (sessions : list (string * Handshake)) : list Event :=
  map (fun session => Connection (fst session) (snd session)) sessions.

(** Every record is stored under its own [id] (lines 33 and 44). *)
Definition records_carry_their_key (w : World) : Prop :=
  Forall (fun entry => client_id (snd entry) = fst entry) (connectedClients w).

(** The sockets a broadcast reaches. *)
Definition connected_sockets (w : World) : list Socket :=
  List.filter connected (sockets w).

(** The status code a trigger request is answered with: 404 on an empty
    table, 500 when the message cannot be printed for the log line, 200
    otherwise. *)
Definition trigger_status (ev : Event) (w : World) : Z :=
  if Nat.eqb (JsMap.size (connectedClients w)) 0 then 404
  else if is_throw (to_string (trigger_message ev w)) then 500
  else 200.

(** A payload the [signMessageResult] listener handles to the end: an object
    whose [message] is a string, whose [account] can be printed and whose
    [signature] is a string or absent. *)
Definition well_formed_report (data : JsValue) : Prop :=
  exists props s,
    data = JObj props /\
    own_property props "message" = Some (JStr s) /\
    printable (default JUndefined (own_property props "account")) /\
    absent_or_string (default JUndefined (own_property props "signature")).

(** The welcome of line 47 and the listeners of lines 50-79. *)
Definition greeting : ServerEvent :=
  serverMessage "Connected to MetaMask automation server".

Definition all_listeners : list string :=
  ["disconnect"; "error"; "clientMessage"; "signMessageResult"].

(** What a socket has been sent, by the branch of the connection handler it
    went through: a registered session got the welcome first and never
    again; a session turned away as a duplicate got broadcasts only. *)
Definition greeted_once (s : Socket) : Prop :=
  (listeners s = [] /\
   forall ev, ev ∈ received s -> exists message id, ev = triggerSign message id) \/
  (listeners s = all_listeners /\
   exists rest, received s = greeting :: rest /\ greeting ∉ rest).

(** The ways an event can change the sockets. *)
Inductive SocketsChange (w : World) : list Socket -> Prop :=
  | Unchanged : SocketsChange w (sockets w)
  | Accepted id hs : SocketsChange w (sockets w ++ [welcomed_socket id hs])
  | TurnedAway id hs : SocketsChange w (sockets w ++ [fresh_socket id hs])
  | Closed h : SocketsChange w (alter close h (sockets w))
  | Broadcast message id :
      printable message ->
      SocketsChange w (deliver (triggerSign message id) <$> sockets w)
  | Acknowledged h socket s :
      sockets w !! h = Some socket ->
      listens socket "signMessageResult" = true ->
      SocketsChange w (alter (deliver (serverMessage (ack_text s))) h (sockets w)).

(** Every broadcast a socket was sent carries a message that prints. *)
Definition carries_printable (s : Socket) : Prop :=
  forall message id, triggerSign message id ∈ received s -> printable message.

(** ** The browser agent's log ([frontend/src/App.jsx]) *)

Module Frontend.

(** The component keeps its log lines in the [status] object, under the two
    keys it ever uses, ["socket"] and ["sign"]. *)
Inductive StatusKey := socket_key | sign_key.

Definition key_name (key : StatusKey) : string :=
  match key with
  | socket_key => "socket"
  | sign_key => "sign"
  end.

Definition Status := JsMap.t (list string).

(** [status[key]]: the array stored under the key, if any. *)
Definition logs (status : Status) (key : StatusKey) : option (list string) :=
  snd <$> List.find (fun entry => String.eqb (fst entry) (key_name key)) status.

(** Lines 15-20: the updater given to [setStatus]; the spread keeps the
    entries in order and the computed key overwrites or appends. *)
Definition updateStatus (key : StatusKey) (message : string) (prev : Status) : Status :=
  JsMap.set prev (key_name key) (default [] (logs prev key) ++ [message]).

(** Lines 235-244: [LogList] renders nothing for a missing or empty array and
    one paragraph per line otherwise, keyed by its index. *)
Definition LogList (lines : option (list string)) : option (list (nat * string)) :=
  match lines with
  | None | Some [] => None
  | Some l => Some (imap (fun i msg => (i, msg)) l)
  end.

(** The object a listener of the client is called with: the literal the
    server passed to [emit] (index.js lines 47, 76-78 and 127), which the
    transport is taken to deliver as it was sent. *)
Definition payload (ev : ServerEvent) : JsValue :=
  match ev with
  | serverMessage message => JObj [("message", JStr message)]
  | triggerSign message id => JObj [("message", message); ("id", JStr id)]
  end.

(** Lines 50-52: the [serverMessage] listener. *)
Definition on_serverMessage (data : JsValue) (status : Status) : Completion Status :=
  cbind (get_prop data "message") (fun message =>
  cbind (to_string message) (fun text =>
  Normal (updateStatus socket_key ("Server: " +:+ text) status))).

(** Line 55: the log line of the [triggerSign] listener, which then hands the
    message to the wallet. *)
Definition on_triggerSign (data : JsValue) (status : Status) : Completion Status :=
  cbind (get_prop data "message") (fun message =>
  cbind (to_string message) (fun text =>
  Normal (updateStatus socket_key ("Received sign trigger: " +:+ text) status))).

(** The listener an event of the server reaches. *)
Definition receive (ev : ServerEvent) (status : Status) : Completion Status :=
  match ev with
  | serverMessage _ => on_serverMessage (payload ev) status
  | triggerSign _ _ => on_triggerSign (payload ev) status
  end.

Fixpoint receive_all (evs : list ServerEvent) (status : Status) : Completion Status :=
  match evs with
  | [] => Normal status
  | ev :: rest => cbind (receive ev status) (receive_all rest)
  end.

(** The line an event adds to the socket log. *)
Definition socket_line (ev : ServerEvent) : Completion string :=
  match ev with
  | serverMessage message => Normal ("Server: " +:+ message)
  | triggerSign message _ =>
      cbind (to_string message) (fun text => Normal ("Received sign trigger: " +:+ text))
  end.

(** The calls of [updateStatus] made one after the other. *)
Definition updates (calls : list (StatusKey * string)) (status : Status) : Status :=
  fold_left (fun st call => updateStatus (fst call) (snd call) st) calls status.

Definition lines_for (key : StatusKey) (calls : list (StatusKey * string)) : list string :=
  snd <$> List.filter (fun call => String.eqb (key_name (fst call)) (key_name key)) calls.

(** What [fetch] resolves with, as far as the button reads it: the status
    and what the promise of [res.text()] settles with. *)
Record FetchResponse := mkFetchResponse {
  res_status : Z;
  res_text : Completion string
}.

(** [res.ok]. *)
Definition res_ok (res : FetchResponse) : bool :=
  (200 <=? res_status res) && (res_status res <=? 299).

Section Button.
(** [JSON.parse] and [String.prototype.trim] are the platform's. *)
Variable JSON_parse : string -> Completion JsValue.
Variable trim : string -> string.

(** Lines 164-169: the [try] around [JSON.parse] and the log call. *)
Definition parsed_line (text : string) : Completion string :=
  match
    cbind (JSON_parse text) (fun data =>
    cbind (get_prop data "message") (fun message =>
    cbind (to_string message) (fun shown => Normal ("Backend: " +:+ shown))))
  with
  | Normal line => Normal line
  | Throw e => Throw (mkError PlainError ("Invalid JSON response: " +:+ err_message e))
  end.

(** Lines 152-170: the two [then] steps. *)
Definition button_chain (res : FetchResponse) : Completion string :=
  if negb (res_ok res) then
    Throw (mkError PlainError ("Server responded with status: " +:+ pretty (res_status res)))
  else
    cbind (res_text res) (fun text =>
    if String.eqb (trim text) EmptyString then
      Throw (mkError PlainError "Empty response from server")
    else parsed_line text).

(** Lines 142-174: the click handler, from the outcome of [fetch] to the new
    status; [catch] turns every failure into a log line. *)
Definition button_line (fetched : Completion FetchResponse) : string :=
  match cbind fetched button_chain with
  | Normal line => line
  | Throw e => "Backend Error: " +:+ err_message e
  end.

Definition button (fetched : Completion FetchResponse) (status : Status) : Status :=
  updateStatus socket_key (button_line fetched) status.
End Button.

(** Line 97: the default of [signMessage]'s parameter replaces [undefined]
    only. *)
Definition sign_argument (msg : JsValue) : JsValue :=
  match msg with
  | JUndefined => JStr "Please sign this message."
  | _ => msg
  end.

(** Lines 104-109: the report [signMessage] emits once the wallet has signed
    for [account]; the message goes back as it came. *)
Definition report (account : string) (msg : JsValue) (signature timestamp : string)
  : JsValue :=
  JObj [("account", JStr account); ("message", sign_argument msg);
        ("signature", JStr signature); ("timestamp", JStr timestamp)].

(** The body the button posts (lines 148-150), as the server parses it. *)
Definition button_body : JsValue :=
  JObj [("message", JStr "Sign this message from backend")].

End Frontend.

(** * Checks of the definitions on concrete inputs *)

Example substring_short : js_substring "abc" 0 30 = "abc".
Proof. reflexivity. Qed.

Example substring_tail : js_substring "0123456789abcdef" (16 - 10) 16 = "6789abcdef".
Proof. reflexivity. Qed.

Example substring_tail_short : js_substring "abc" (3 - 10) 3 = "abc".
Proof. reflexivity. Qed.

Example substring_swapped : js_substring "abcdef" 4 1 = "bcd".
Proof. reflexivity. Qed.

Example ack_short : ack_text "hi" = "Signature received for message: " +:+ dquote +:+ "hi" +:+ dquote.
Proof. reflexivity. Qed.

Example ack_long :
  ack_text "Please sign this message from the server."
  = "Signature received for message: " +:+ dquote +:+
    "Please sign this message from ..." +:+ dquote.
Proof. reflexivity. Qed.

Example digest_of_signature :
  signature_digest (JObj [("signature", JStr "0x0123456789abcdef0123456789abcdef")])
  = Normal "- Signature: 0x0123456789abcdef01...6789abcdef".
Proof. reflexivity. Qed.

Example digest_without_signature :
  signature_digest (JObj []) = Normal "- Signature: undefined...undefined".
Proof. reflexivity. Qed.

Example post_message_absent : post_message JUndefined = Normal (JStr default_message).
Proof. reflexivity. Qed.

Example post_message_number :
  post_message (JObj [("message", JNum 7)]) = Normal (JNum 7).
Proof. reflexivity. Qed.

Example two_clients_table :
  JsMap.keys (connectedClients two_clients) = ["A"; "B"].
Proof. reflexivity. Qed.

Example to_string_array :
  to_string (JArr [JNum 1; JNull; JStr "x"; JArr [JBool true; JNum (-2)]])
  = Normal "1,,x,true,-2".
Proof. reflexivity. Qed.

Example to_string_hostile :
  to_string (JObj [("toString", JNum 1)]) = Throw cannot_convert.
Proof. reflexivity. Qed.

Example iso_epoch : toISOString 0 = "1970-01-01T00:00:00.000Z".
Proof. vm_compute. reflexivity. Qed.

Example iso_2023 : toISOString 1700000000123 = "2023-11-14T22:13:20.123Z".
Proof. vm_compute. reflexivity. Qed.

Example iso_leap : toISOString 951782400000 = "2000-02-29T00:00:00.000Z".
Proof. vm_compute. reflexivity. Qed.

Example iso_before_epoch : toISOString (-1) = "1969-12-31T23:59:59.999Z".
Proof. vm_compute. reflexivity. Qed.

(** * Properties of the table *)

Module JsMapFacts.
Import JsMap.

Section Facts.
Context {V : Type}.
Implicit Types (m : JsMap.t V) (k : string) (v : V).

Lemma has_keys m k : has m k = true <-> k ∈ keys m.
Proof.
  induction m as [|[k' v'] m IH]; simpl.
  - split; [discriminate | intros H; inversion H].
  - rewrite orb_true_iff, IH, elem_of_cons, String.eqb_eq. split.
    + intros [-> | H]; auto.
    + intros [-> | H]; auto.
Qed.

Lemma has_false_keys m k : has m k = false <-> k ∉ keys m.
Proof.
  rewrite <- has_keys. destruct (has m k); split; try done.
Qed.

Lemma set_absent m k v : has m k = false -> set m k v = m ++ [(k, v)].
Proof.
  induction m as [|[k' v'] m IH]; simpl; [done|].
  intros H. apply orb_false_iff in H as [Hk Hm].
  rewrite Hk. by rewrite IH.
Qed.

Lemma keys_set_absent m k v : has m k = false -> keys (set m k v) = keys m ++ [k].
Proof. intros H. rewrite set_absent by done. unfold keys. by rewrite map_app. Qed.

Lemma size_set_absent m k v : has m k = false -> size (set m k v) = S (size m).
Proof.
  intros H. rewrite set_absent by done. unfold size.
  rewrite length_app. simpl. lia.
Qed.

Lemma elem_of_keys_delete m k k' : k' ∈ keys (delete m k) <-> k' ∈ keys m /\ k' <> k.
Proof.
  induction m as [|[k0 v0] m IH]; simpl.
  - split; [intros H; inversion H | intros [H _]; inversion H].
  - destruct (String.eqb k0 k) eqn:E.
    + apply String.eqb_eq in E as ->. rewrite IH, elem_of_cons. intuition congruence.
    + apply String.eqb_neq in E. simpl. rewrite !elem_of_cons, IH. intuition congruence.
Qed.

Lemma has_delete m k : has (delete m k) k = false.
Proof. apply has_false_keys. rewrite elem_of_keys_delete. tauto. Qed.

Lemma delete_absent m k : has m k = false -> delete m k = m.
Proof.
  induction m as [|[k' v'] m IH]; simpl; [done|].
  intros H. apply orb_false_iff in H as [Hk Hm].
  rewrite Hk. by rewrite IH.
Qed.

Lemma delete_idempotent m k : delete (delete m k) k = delete m k.
Proof. apply delete_absent, has_delete. Qed.

Lemma NoDup_keys_delete m k : NoDup (keys m) -> NoDup (keys (delete m k)).
Proof.
  induction m as [|[k' v'] m IH]; simpl; [done|].
  intros H. apply NoDup_cons in H as [Hk Hm].
  destruct (String.eqb k' k); [by apply IH|].
  simpl. apply NoDup_cons. split; [|by apply IH].
  rewrite elem_of_keys_delete. tauto.
Qed.

Lemma NoDup_keys_set_absent m k v :
  has m k = false -> NoDup (keys m) -> NoDup (keys (set m k v)).
Proof.
  intros H Hm. rewrite keys_set_absent by done.
  apply NoDup_app. split_and!; [done| |apply NoDup_singleton].
  intros x Hx Hx'. apply list_elem_of_singleton in Hx' as ->.
  by apply has_false_keys in H.
Qed.

Lemma size_keys m : length (keys m) = size m.
Proof. unfold keys, size. apply length_map. Qed.
End Facts.
End JsMapFacts.

(** * Frame properties of the handlers *)

Section Respects.
Variable R : World -> World -> Prop.
Context `{!PreOrder R}.

Lemma respects_ret {A} (a : A) : respects R (ret a).
Proof. intros w. reflexivity. Qed.

Lemma respects_lift {A} (c : Completion A) : respects R (lift c).
Proof. intros w. reflexivity. Qed.

Lemma respects_bind {A B} (m : M A) (k : A -> M B) :
  respects R m -> (forall a, respects R (k a)) -> respects R (bind m k).
Proof.
  intros Hm Hk w. unfold bind. specialize (Hm w).
  destruct (m w) as [[a|e] w1]; simpl in *; [|done].
  etransitivity; [exact Hm | apply Hk].
Qed.

Lemma respects_try_catch {A} (m : M A) (k : JsError -> M A) :
  respects R m -> (forall e, respects R (k e)) -> respects R (try_catch m k).
Proof.
  intros Hm Hk w. unfold try_catch. specialize (Hm w).
  destruct (m w) as [[a|e] w1]; simpl in *; [done|].
  etransitivity; [exact Hm | apply Hk].
Qed.
End Respects.

#[export] Instance same_clients_preorder : PreOrder same_clients.
Proof. split; [done | intros x y z; unfold same_clients; congruence]. Qed.

#[export] Instance same_process_preorder : PreOrder same_process.
Proof. split; [done | intros x y z; unfold same_process; congruence]. Qed.

Lemma links_refl l : links l l.
Proof. split; [done | intros h s Hs; exists s; auto]. Qed.

Lemma links_trans l1 l2 l3 : links l1 l2 -> links l2 l3 -> links l1 l3.
Proof.
  intros [Hlen1 H1] [Hlen2 H2]. split; [congruence|].
  intros h s Hs. destruct (H1 h s Hs) as (s' & Hs' & Hid & Hc & Hl).
  destruct (H2 h s' Hs') as (s'' & Hs'' & Hid' & Hc' & Hl').
  exists s''. split_and!; [done | congruence | congruence | auto].
Qed.

#[export] Instance same_links_preorder : PreOrder same_links.
Proof.
  split; [intros w; apply links_refl|].
  intros x y z. unfold same_links. apply links_trans.
Qed.

Lemma links_alter (f : Socket -> Socket) h l :
  (forall s, sock_id (f s) = sock_id s /\ connected (f s) = connected s /\
             forall name, name ∈ listeners s -> name ∈ listeners (f s)) ->
  links l (alter f h l).
Proof.
  intros Hf. split; [apply length_alter|].
  intros h' s Hs. destruct (decide (h = h')) as [->|Hne].
  - exists (f s). rewrite list_lookup_alter_eq, Hs. simpl.
    destruct (Hf s) as (? & ? & ?). auto.
  - exists s. rewrite list_lookup_alter_ne by done. auto.
Qed.

Lemma links_fmap (f : Socket -> Socket) l :
  (forall s, sock_id (f s) = sock_id s /\ connected (f s) = connected s /\
             forall name, name ∈ listeners s -> name ∈ listeners (f s)) ->
  links l (f <$> l).
Proof.
  intros Hf. split; [apply length_fmap|].
  intros h s Hs. exists (f s). rewrite list_lookup_fmap, Hs. simpl.
  destruct (Hf s) as (? & ? & ?). auto.
Qed.

Lemma deliver_keeps ev s :
  sock_id (deliver ev s) = sock_id s /\ connected (deliver ev s) = connected s /\
  forall name, name ∈ listeners s -> name ∈ listeners (deliver ev s).
Proof. unfold deliver. destruct (connected s) eqn:E; simpl; auto. Qed.

Lemma add_listener_keeps n s :
  sock_id (add_listener n s) = sock_id s /\ connected (add_listener n s) = connected s /\
  forall name, name ∈ listeners s -> name ∈ listeners (add_listener n s).
Proof. simpl. split_and!; auto. intros name H. apply elem_of_app. auto. Qed.

(** Solves [respects R m] for [m] built from the primitives by sequencing,
    branching and [try]/[catch]. *)
Ltac frame_leaf :=
  first
    [ apply respects_ret; apply _
    | apply respects_lift; apply _
    | intros ?w; reflexivity
    | intros ?w; apply links_refl
    | intros ?w; apply links_alter; first [apply deliver_keeps | apply add_listener_keeps]
    | intros ?w; apply links_fmap; apply deliver_keeps ].

Ltac frame :=
  repeat
    match goal with
    | |- respects _ (bind _ _) => apply respects_bind; [apply _ | | intros ?]
    | |- respects _ (try_catch _ _) => apply respects_try_catch; [apply _ | | intros ?]
    | |- respects _ (if ?b then _ else _) => destruct b
    | |- respects _ _ => frame_leaf
    end.

Lemma handlers_keep_clients :
  respects same_clients get_status /\
  (forall req_body, respects same_clients (post_trigger_sign req_body)) /\
  respects same_clients get_trigger_sign /\
  (forall socket data, respects same_clients (on_clientMessage socket data)) /\
  (forall h socket data, respects same_clients (on_signMessageResult h socket data)) /\
  respects same_clients on_listening /\
  (forall code error, respects same_clients (on_server_error code error)).
Proof.
  split_and!; intros;
    unfold get_status, post_trigger_sign, get_trigger_sign, on_clientMessage,
      on_signMessageResult, on_listening, on_server_error, no_clients, broadcast, server_error, get_message;
    frame.
Qed.

Lemma handlers_keep_links :
  respects same_links get_status /\
  (forall req_body, respects same_links (post_trigger_sign req_body)) /\
  respects same_links get_trigger_sign /\
  (forall socket data, respects same_links (on_clientMessage socket data)) /\
  (forall h socket data, respects same_links (on_signMessageResult h socket data)) /\
  respects same_links on_listening /\
  (forall code error, respects same_links (on_server_error code error)) /\
  (forall socket reason, respects same_links (on_disconnect socket reason)) /\
  (forall socket error, respects same_links (on_error socket error)) /\
  (forall h socket, respects same_links (on_connection h socket)).
Proof.
  split_and!; intros;
    unfold get_status, post_trigger_sign, get_trigger_sign, on_clientMessage,
      on_signMessageResult, on_listening, on_server_error, no_clients, broadcast, server_error, get_message,
      on_disconnect, on_error, on_connection;
    frame.
Qed.

Lemma handlers_keep_process :
  respects same_process get_status /\
  (forall req_body, respects same_process (post_trigger_sign req_body)) /\
  respects same_process get_trigger_sign /\
  (forall socket data, respects same_process (on_clientMessage socket data)) /\
  (forall h socket data, respects same_process (on_signMessageResult h socket data)) /\
  respects same_process on_listening /\
  (forall socket reason, respects same_process (on_disconnect socket reason)) /\
  (forall socket error, respects same_process (on_error socket error)) /\
  (forall h socket, respects same_process (on_connection h socket)).
Proof.
  split_and!; intros;
    unfold get_status, post_trigger_sign, get_trigger_sign, on_clientMessage,
      on_signMessageResult, on_listening, on_server_error, no_clients, broadcast, server_error, get_message,
      on_disconnect, on_error, on_connection;
    frame.
Qed.

(** * The effect of each event *)

Lemma alter_last {A} (f : A -> A) (l : list A) (x : A) :
  alter f (length l) (l ++ [x]) = l ++ [f x].
Proof.
  replace (length l) with (length l + 0)%nat at 1 by lia.
  by rewrite alter_app_r.
Qed.

Lemma step_stopped ev w : process w <> Running -> step ev w = w.
Proof. unfold step. by destruct (process w). Qed.

Lemma settle_clients r : connectedClients (settle r) = connectedClients (snd r).
Proof. by destruct r as [[?|?] ?]. Qed.

Lemma settle_sockets r : sockets (settle r) = sockets (snd r).
Proof. by destruct r as [[?|?] ?]. Qed.

Lemma route_clients r : connectedClients (route r) = connectedClients (snd r).
Proof. by destruct r as [[?|?] ?]. Qed.

Lemma route_sockets r : sockets (route r) = sockets (snd r).
Proof. by destruct r as [[?|?] ?]. Qed.

Lemma route_process r : process (route r) = process (snd r).
Proof. by destruct r as [[?|?] ?]. Qed.

Lemma step_connection w id hs :
  process w = Running ->
  let w' := step (Connection id hs) w in
  (process w' = Running /\ ticks w' = S (ticks w) /\ clock w' = clock w) /\
  if JsMap.has (connectedClients w) id
  then connectedClients w' = connectedClients w /\
       sockets w' = sockets w ++ [fresh_socket id hs]
  else connectedClients w' =
         JsMap.set (connectedClients w) id
           (mkClientInfo id (address hs) (user_agent hs) (clock w (ticks w))) /\
       sockets w' = sockets w ++ [welcomed_socket id hs].
Proof.
  intros Hrun. unfold step. rewrite Hrun.
  unfold on_connection, bind, Date_now, console_log, clients_size, clients_has,
    clients_set, socket_emit, socket_on. simpl.
  destruct (JsMap.has (connectedClients w) id) eqn:Hhas; simpl.
  - done.
  - split; [done|]. split; [done|].
    rewrite !alter_last. reflexivity.
Qed.

Lemma step_disconnect w h reason socket :
  process w = Running -> sockets w !! h = Some socket -> connected socket = true ->
  let w' := step (Disconnect h reason) w in
  process w' = Running /\
  sockets w' = alter close h (sockets w) /\
  connectedClients w' =
    if listens socket "disconnect"
    then JsMap.delete (connectedClients w) (sock_id socket)
    else connectedClients w.
Proof.
  intros Hrun Hs Hc. unfold step. rewrite Hrun, Hs, Hc.
  destruct (listens socket "disconnect"); simpl; done.
Qed.

Lemma step_socket_error w h error socket :
  process w = Running -> sockets w !! h = Some socket ->
  let w' := step (SocketError h error) w in
  process w' = Running /\
  sockets w' = sockets w /\
  connectedClients w' =
    if connected socket && listens socket "error"
    then JsMap.delete (connectedClients w) (sock_id socket)
    else connectedClients w.
Proof.
  intros Hrun Hs. unfold step. rewrite Hrun, Hs.
  destruct (connected socket && listens socket "error"); simpl; done.
Qed.

Lemma step_quiet ev w :
  mutates_registry ev = false ->
  same_clients w (step ev w) /\ same_links w (step ev w).
Proof.
  intros Hev.
  destruct handlers_keep_clients as (Hc1 & Hc2 & Hc3 & Hc4 & Hc5 & Hc6 & Hc7).
  destruct handlers_keep_links as (Hl1 & Hl2 & Hl3 & Hl4 & Hl5 & Hl6 & Hl7 & _).
  unfold step, same_clients, same_links.
  destruct (process w); [|split; [done | apply links_refl]..].
  destruct ev; try discriminate;
    rewrite ?settle_clients, ?settle_sockets, ?route_clients, ?route_sockets;
    try (split; [apply Hc1 || apply Hc2 || apply Hc3 || apply Hc6 || apply Hc7
                |apply Hl1 || apply Hl2 || apply Hl3 || apply Hl6 || apply Hl7]).
  destruct (sockets w !! h) as [socket|]; [|split; [done | apply links_refl]].
  destruct (connected socket && listens socket name); [|split; [done | apply links_refl]].
  destruct (String.eqb name "clientMessage").
  { rewrite settle_clients, settle_sockets. split; [apply Hc4 | apply Hl4]. }
  destruct (String.eqb name "signMessageResult").
  { rewrite settle_clients, settle_sockets. split; [apply Hc5 | apply Hl5]. }
  split; [done | apply links_refl].
Qed.

(** * The invariant of the reachable worlds *)

Lemma invariant_initial clock env : invariant (initial clock env).
Proof.
  split; [apply NoDup_nil_2|].
  intros id Hid. inversion Hid.
Qed.

Lemma invariant_quiet w w' :
  same_clients w w' -> same_links w w' -> invariant w -> invariant w'.
Proof.
  unfold same_clients, same_links, invariant, one_record_per_id, registered_live.
  intros Hc [_ Hl] [Hnd Hlive]. rewrite Hc. split; [done|].
  intros id Hid. destruct (Hlive id Hid) as (h & s & Hs & Hid' & Hcon & Hlis).
  destruct (Hl h s Hs) as (s' & Hs' & Hid'' & Hcon' & Hlis').
  exists h, s'. split; [done|]. unfold serves, listens in *.
  split_and!; [congruence | congruence |].
  apply bool_decide_eq_true. apply Hlis'. by apply bool_decide_eq_true in Hlis.
Qed.

Lemma invariant_step ev w : invariant w -> invariant (step ev w).
Proof.
  intros Hinv.
  destruct (process w) eqn:Hrun;
    [|rewrite step_stopped; [done | congruence]..].
  destruct (mutates_registry ev) eqn:Hev;
    [|destruct (step_quiet ev w Hev); by eapply invariant_quiet].
  destruct Hinv as [Hnd Hlive]. unfold one_record_per_id, registered_live in *.
  destruct ev as [id hs|h reason|h error| | | | | |]; try discriminate.
  - (* connection *)
    destruct (step_connection w id hs Hrun) as [_ Hstep].
    destruct (JsMap.has (connectedClients w) id) eqn:Hhas;
      destruct Hstep as [Hc Hs]; unfold invariant, one_record_per_id, registered_live;
      rewrite Hc, Hs.
    + split; [done|]. intros id' Hid'.
      destruct (Hlive id' Hid') as (h & s & Hh & Hserves).
      exists h, s. split; [|done]. by apply lookup_app_l_Some.
    + split; [by apply JsMapFacts.NoDup_keys_set_absent|].
      intros id' Hid'. rewrite JsMapFacts.keys_set_absent in Hid' by done.
      apply elem_of_app in Hid' as [Hid'|Hid'].
      * destruct (Hlive id' Hid') as (h & s & Hh & Hserves).
        exists h, s. split; [|done]. by apply lookup_app_l_Some.
      * apply list_elem_of_singleton in Hid' as ->.
        exists (length (sockets w)), (welcomed_socket id hs). split.
        { rewrite lookup_app_r by lia. by rewrite Nat.sub_diag. }
        by split_and!.
  - (* disconnect *)
    destruct (sockets w !! h) as [socket|] eqn:Hs;
      [|unfold step; rewrite Hrun, Hs; by split].
    destruct (connected socket) eqn:Hcon;
      [|unfold step; rewrite Hrun, Hs, Hcon; by split].
    destruct (step_disconnect w h reason socket Hrun Hs Hcon) as (_ & Hsock & Hc).
    unfold invariant, one_record_per_id, registered_live. rewrite Hsock, Hc.
    destruct (listens socket "disconnect") eqn:Hlis.
    + split; [by apply JsMapFacts.NoDup_keys_delete|].
      intros id' Hid'. apply JsMapFacts.elem_of_keys_delete in Hid' as [Hid' Hne].
      destruct (Hlive id' Hid') as (h' & s & Hh & Hserves).
      exists h', s. split; [|done].
      rewrite list_lookup_alter_ne; [done|].
      intros ->. destruct Hserves as [Hid _]. congruence.
    + split; [done|]. intros id' Hid'.
      destruct (Hlive id' Hid') as (h' & s & Hh & Hserves).
      exists h', s. split; [|done].
      rewrite list_lookup_alter_ne; [done|].
      intros ->. destruct Hserves as (_ & _ & Hl). congruence.
  - (* socket error *)
    destruct (sockets w !! h) as [socket|] eqn:Hs;
      [|unfold step; rewrite Hrun, Hs; by split].
    destruct (step_socket_error w h error socket Hrun Hs) as (_ & Hsock & Hc).
    unfold invariant, one_record_per_id, registered_live. rewrite Hsock, Hc.
    destruct (connected socket && listens socket "error"); [|done].
    split; [by apply JsMapFacts.NoDup_keys_delete|].
    intros id' Hid'. apply JsMapFacts.elem_of_keys_delete in Hid' as [Hid' Hne].
    by apply Hlive.
Qed.

Lemma invariant_run evs w : invariant w -> invariant (run evs w).
Proof.
  revert w. induction evs as [|ev evs IH]; intros w Hw; [done|].
  simpl. apply IH. by apply invariant_step.
Qed.

Lemma invariant_reachable w : reachable w -> invariant w.
Proof.
  intros (clock & env & evs & ->). apply invariant_run, invariant_initial.
Qed.


(** * The trigger routes *)

Lemma broadcast_throws message e w :
  to_string message = Throw e -> broadcast message w = (Throw e, w).
Proof. intros H. unfold broadcast, bind, clients_size, lift. simpl. by rewrite H. Qed.

Lemma broadcast_returns message text w :
  to_string message = Normal text ->
  let messageId := pretty (clock w (ticks w)) in
  let w' := snd (broadcast message w) in
  fst (broadcast message w) = Normal tt /\
  sockets w' = deliver (triggerSign message messageId) <$> sockets w /\
  responses w' = responses w ++
    [mkResponse 200
       (TriggerSent true
          ("Sign request sent to " +:+ pretty (JsMap.size (connectedClients w)) +:+
           " client(s)")
          (JsMap.keys (connectedClients w)) messageId)] /\
  connectedClients w' = connectedClients w /\
  process w' = process w.
Proof.
  intros H. unfold broadcast, bind, clients_size, lift. simpl. rewrite H. simpl.
  by split_and!.
Qed.

Lemma get_message_returns w :
  get_message w =
    (Normal (JStr ("Please sign this message triggered via GET from the frontend at " +:+
                   toISOString (clock w (ticks w)))),
     with_ticks (S (ticks w)) w).
Proof. reflexivity. Qed.

(** The value the POST route reads for [req.body.message]. *)
Lemma post_message_returns req_body :
  post_message req_body = Normal (chosen_message req_body).
Proof.
  unfold post_message, chosen_message, message_field, cbind.
  destruct req_body as [| |b|n|s|items|props]; simpl; try done.
  - by destruct b.
  - destruct (n =? 0) eqn:E; simpl; by rewrite ?E.
  - destruct (String.eqb s EmptyString) eqn:E; simpl; by rewrite ?E.
  - by destruct (truthy (default JUndefined (own_property props "message"))).
Qed.

Lemma size_test (w : World) :
  JsMap.size (connectedClients w) <> 0%nat ->
  Nat.eqb (JsMap.size (connectedClients w)) 0 = false.
Proof. intros H. by apply Nat.eqb_neq. Qed.

Lemma step_post_trigger w req_body :
  process w = Running -> JsMap.size (connectedClients w) <> 0%nat ->
  step (PostTriggerSign req_body) w =
    route (try_catch (broadcast (chosen_message req_body)) (server_error "POST")
             (entered "POST" w)).
Proof.
  intros Hrun Hsize. unfold step. rewrite Hrun.
  unfold post_trigger_sign, bind, console_log, clients_size, lift. simpl.
  rewrite (size_test w Hsize), post_message_returns. reflexivity.
Qed.

Lemma step_get_trigger w :
  process w = Running -> JsMap.size (connectedClients w) <> 0%nat ->
  step GetTriggerSign w =
    route (try_catch (message <- get_message ;; broadcast message) (server_error "GET")
             (entered "GET" w)).
Proof.
  intros Hrun Hsize. unfold step. rewrite Hrun.
  unfold get_trigger_sign. unfold bind at 1 2. unfold console_log, clients_size. simpl.
  rewrite (size_test w Hsize). reflexivity.
Qed.

Lemma step_trigger_empty w ev :
  process w = Running -> is_trigger ev = true ->
  JsMap.size (connectedClients w) = 0%nat ->
  step ev w =
    with_responses (fun r => r ++ [mkResponse 404 (Failure false "No clients connected" None)])
      (with_console (fun c => c ++ [(Stdout, [PStr "No clients connected"])])
         (entered (match ev with PostTriggerSign _ => "POST" | _ => "GET" end) w)).
Proof.
  intros Hrun Hev Hsize. unfold step. rewrite Hrun.
  destruct ev; try discriminate;
    unfold post_trigger_sign, get_trigger_sign, bind, console_log, clients_size, no_clients;
    simpl; rewrite Hsize; reflexivity.
Qed.

Lemma caught_500 method message e w :
  to_string message = Throw e ->
  let w' := route (try_catch (broadcast message) (server_error method) w) in
  responses w' = responses w ++
    [mkResponse 500 (Failure false "Server error" (Some (err_message e)))] /\
  process w' = process w /\
  connectedClients w' = connectedClients w /\
  sockets w' = sockets w.
Proof.
  intros H. unfold try_catch. rewrite (broadcast_throws message e w H). simpl. done.
Qed.

Lemma sent_200 method message text w :
  to_string message = Normal text ->
  let messageId := pretty (clock w (ticks w)) in
  let w' := route (try_catch (broadcast message) (server_error method) w) in
  sockets w' = deliver (triggerSign message messageId) <$> sockets w /\
  responses w' = responses w ++
    [mkResponse 200
       (TriggerSent true
          ("Sign request sent to " +:+ pretty (JsMap.size (connectedClients w)) +:+
           " client(s)")
          (JsMap.keys (connectedClients w)) messageId)] /\
  connectedClients w' = connectedClients w /\
  process w' = process w.
Proof.
  intros H. destruct (broadcast_returns message text w H) as (Hr & Hrest).
  unfold try_catch. destruct (broadcast message w) as [[[]|e] w1]; simpl in *; [|done].
  exact Hrest.
Qed.

Lemma reachable_one_client : reachable one_client.
Proof. by exists sample_clock, None, [Listening; Connection "A" sample_handshake]. Qed.

Lemma reachable_two_clients : reachable two_clients.
Proof.
  by exists sample_clock, None,
    [Listening; Connection "A" sample_handshake; Connection "B" sample_handshake].
Qed.

Lemma step_trigger w ev :
  process w = Running -> is_trigger ev = true ->
  JsMap.size (connectedClients w) <> 0%nat ->
  forall text, to_string (trigger_message ev w) = Normal text ->
  let w' := step ev w in
  sockets w' = deliver (triggerSign (trigger_message ev w) (trigger_id ev w)) <$> sockets w /\
  responses w' = responses w ++
    [mkResponse 200
       (TriggerSent true
          ("Sign request sent to " +:+ pretty (JsMap.size (connectedClients w)) +:+
           " client(s)")
          (JsMap.keys (connectedClients w)) (trigger_id ev w))] /\
  connectedClients w' = connectedClients w /\
  process w' = Running.
Proof.
  intros Hrun Hev Hsize text Htext. destruct ev; try discriminate; simpl in *.
  - rewrite step_post_trigger by done.
    destruct (sent_200 "POST" _ text (entered "POST" w) Htext) as (H1 & H2 & H3 & H4).
    split_and!; [exact H1 | exact H2 | exact H3 | by rewrite H4].
  - rewrite step_get_trigger by done.
    unfold try_catch, bind. rewrite get_message_returns.
    set (m := JStr _). set (w1 := with_ticks _ _).
    destruct (broadcast_returns m text w1 Htext) as (H0 & H1 & H2 & H3 & H4).
    destruct (broadcast m w1) as [[[]|e] w2]; simpl in *; [|done].
    split_and!; [exact H1 | exact H2 | exact H3 | by rewrite H4].
Qed.

(** C1 (as stated, refuted): with one client registered, a POST whose
    [message] is an object with an own [toString] property is answered 500,
    not 200, and no client receives a [triggerSign] event. *)
Lemma trigger_post_unprintable_message_is_500 :
  let req_body := JObj [("message", JObj [("toString", JNum 1)])] in
  let w' := step (PostTriggerSign req_body) one_client in
  JsMap.size (connectedClients one_client) = 1%nat /\
  process one_client = Running /\
  responses w' =
    [mkResponse 500
       (Failure false "Server error" (Some "Cannot convert object to primitive value"))] /\
  sockets w' = sockets one_client.
Proof. vm_compute. by split_and!. Qed.

(** C1 (amended): for every GET request, and every POST request whose message
    converts to a string for the log line, made in a reachable world with
    k >= 1 registered connections, the route answers 200 with success true,
    the k registered ids as [clients], the text "Sign request sent to k
    client(s)" and a [messageId]; every registered id has a connected socket,
    and every connected socket receives exactly one [triggerSign] event
    carrying the message and that [messageId]. *)
Theorem trigger_sign_reaches_every_client w ev k text :
  reachable w -> process w = Running -> is_trigger ev = true ->
  JsMap.size (connectedClients w) = k -> (1 <= k)%nat ->
  to_string (trigger_message ev w) = Normal text ->
  let w' := step ev w in
  let event := triggerSign (trigger_message ev w) (trigger_id ev w) in
  responses w' = responses w ++
    [mkResponse 200
       (TriggerSent true ("Sign request sent to " +:+ pretty k +:+ " client(s)")
          (JsMap.keys (connectedClients w)) (trigger_id ev w))] /\
  length (JsMap.keys (connectedClients w)) = k /\
  (forall id, id ∈ JsMap.keys (connectedClients w) ->
     exists h s s', sockets w !! h = Some s /\ serves s id /\
                    sockets w' !! h = Some s' /\ received s' = received s ++ [event]) /\
  (forall h s, sockets w !! h = Some s ->
     exists s', sockets w' !! h = Some s' /\
                received s' = if connected s then received s ++ [event] else received s).
Proof.
  intros Hreach Hrun Hev Hk Hpos Htext w' event.
  assert (Hsize : JsMap.size (connectedClients w) <> 0%nat) by lia.
  destruct (step_trigger w ev Hrun Hev Hsize text Htext) as (Hs & Hr & _ & _).
  fold w' in Hs, Hr. fold event in Hs.
  assert (Hall : forall h s, sockets w !! h = Some s ->
     exists s', sockets w' !! h = Some s' /\
                received s' = if connected s then received s ++ [event] else received s).
  { intros h s Hh. exists (deliver event s). rewrite Hs, list_lookup_fmap, Hh.
    split; [done|]. unfold deliver. by destruct (connected s). }
  split_and!.
  - by rewrite Hr, Hk.
  - by rewrite JsMapFacts.size_keys.
  - intros id Hid. destruct (invariant_reachable w Hreach) as [_ Hlive].
    destruct (Hlive id Hid) as (h & s & Hh & Hserves).
    destruct (Hall h s Hh) as (s' & Hh' & Hrecv).
    exists h, s, s'. split_and!; [done | done | done |].
    destruct Hserves as (_ & Hc & _). by rewrite Hc in Hrecv.
  - exact Hall.
Qed.

Lemma trigger_sign_reaches_every_client_witness :
  let ev := PostTriggerSign (JObj [("message", JStr "m1")]) in
  let w' := step ev two_clients in
  (reachable two_clients /\ process two_clients = Running /\
   JsMap.size (connectedClients two_clients) = 2%nat) /\
  responses w' =
    [mkResponse 200
       (TriggerSent true "Sign request sent to 2 client(s)" ["A"; "B"] "1700000000200")] /\
  map received (sockets w') =
    [[serverMessage "Connected to MetaMask automation server";
      triggerSign (JStr "m1") "1700000000200"];
     [serverMessage "Connected to MetaMask automation server";
      triggerSign (JStr "m1") "1700000000200"]].
Proof.
  pose proof (trigger_sign_reaches_every_client two_clients
                (PostTriggerSign (JObj [("message", JStr "m1")])) 2 "m1"
                reachable_two_clients eq_refl eq_refl eq_refl
                (le_S _ _ (le_n 1)) eq_refl) as (Hr & _).
  split; [split; [exact reachable_two_clients | split; reflexivity]|].
  split; [exact Hr | vm_compute; reflexivity].
Defined.

(** C2: whatever the request, POST with any body or GET, a trigger request
    made while the table is empty is answered 404 with success false and the
    message "No clients connected"; no socket receives anything and the
    table stays empty. *)
Theorem trigger_without_clients_is_404 w ev :
  process w = Running -> is_trigger ev = true ->
  JsMap.size (connectedClients w) = 0%nat ->
  let w' := step ev w in
  responses w' = responses w ++
    [mkResponse 404 (Failure false "No clients connected" None)] /\
  sockets w' = sockets w /\
  connectedClients w' = connectedClients w /\
  process w' = Running.
Proof.
  intros Hrun Hev Hsize. simpl. rewrite step_trigger_empty by done. simpl. done.
Qed.

Lemma trigger_without_clients_is_404_witness :
  let req_body := JObj [("message", JStr "Sign XYZ")] in
  (process nobody = Running /\ JsMap.size (connectedClients nobody) = 0%nat) /\
  responses (step (PostTriggerSign req_body) nobody) =
    [mkResponse 404 (Failure false "No clients connected" None)] /\
  sockets (step (PostTriggerSign req_body) nobody) = [].
Proof.
  pose proof (trigger_without_clients_is_404 nobody
                (PostTriggerSign (JObj [("message", JStr "Sign XYZ")]))
                eq_refl eq_refl eq_refl) as (Hr & Hs & _).
  split; [split; reflexivity|]. split; [exact Hr | exact Hs].
Defined.

(** C3 (as stated, refuted): a body whose [message] field is the empty string
    has the field, yet the client receives the default text, not the empty
    string. *)
Lemma post_empty_message_broadcasts_default :
  let req_body := JObj [("message", JStr EmptyString)] in
  own_property [("message", JStr EmptyString)] "message" = Some (JStr EmptyString) /\
  map received (sockets (step (PostTriggerSign req_body) one_client)) =
    [[serverMessage "Connected to MetaMask automation server";
      triggerSign (JStr "Please sign this message from the server.") "1700000000100"]].
Proof. vm_compute. by split. Qed.

(** C3 (amended): for every POST made with at least one registered
    connection, the broadcast [message] is the body's [message] field
    whenever that field is truthy and converts to a string for the log line;
    it is the default text when the body is missing, or the field is absent
    or falsy (the empty string included); the body [{message: "Sign XYZ"}]
    broadcasts exactly "Sign XYZ". *)
Theorem post_broadcasts_field_or_default w req_body :
  process w = Running -> JsMap.size (connectedClients w) <> 0%nat ->
  let w' := step (PostTriggerSign req_body) w in
  let broadcasts message :=
    sockets w' = deliver (triggerSign message (pretty (clock w (ticks w)))) <$> sockets w in
  (truthy req_body = true -> truthy (message_field req_body) = true ->
   (exists text, to_string (message_field req_body) = Normal text) ->
   broadcasts (message_field req_body)) /\
  (truthy req_body = false \/ truthy (message_field req_body) = false ->
   broadcasts (JStr default_message)) /\
  (forall props, req_body = JObj props -> own_property props "message" = None ->
   broadcasts (JStr default_message)) /\
  (req_body = JObj [("message", JStr "Sign XYZ")] -> broadcasts (JStr "Sign XYZ")).
Proof.
  intros Hrun Hsize w' broadcasts.
  assert (Hsend : forall text, to_string (chosen_message req_body) = Normal text ->
                  broadcasts (chosen_message req_body)).
  { intros text Htext.
    by destruct (step_trigger w (PostTriggerSign req_body) Hrun eq_refl Hsize text Htext)
      as (Hs & _). }
  assert (Hdefault : truthy req_body = false \/ truthy (message_field req_body) = false ->
                     broadcasts (JStr default_message)).
  { intros Hfalsy.
    assert (Hc : chosen_message req_body = JStr default_message).
    { unfold chosen_message. destruct Hfalsy as [-> | ->]; [done|].
      by rewrite andb_false_r. }
    rewrite <- Hc. apply (Hsend default_message). by rewrite Hc. }
  split_and!.
  - intros Hbody Hfield [text Htext].
    assert (Hc : chosen_message req_body = message_field req_body).
    { unfold chosen_message. by rewrite Hbody, Hfield. }
    rewrite <- Hc. apply (Hsend text). by rewrite Hc.
  - exact Hdefault.
  - intros props -> Hnone. apply Hdefault. right.
    unfold message_field. simpl. by rewrite Hnone.
  - intros Hbody. rewrite Hbody in Hsend. by apply (Hsend "Sign XYZ").
Qed.

Lemma post_broadcasts_field_or_default_witness :
  (process one_client = Running /\ JsMap.size (connectedClients one_client) <> 0%nat) /\
  sockets (step (PostTriggerSign (JObj [("message", JStr "Sign XYZ")])) one_client) =
    deliver (triggerSign (JStr "Sign XYZ") "1700000000100") <$> sockets one_client /\
  sockets (step (PostTriggerSign (JObj [])) one_client) =
    deliver (triggerSign (JStr default_message) "1700000000100") <$> sockets one_client.
Proof.
  assert (Hsize : JsMap.size (connectedClients one_client) <> 0%nat) by (vm_compute; lia).
  split; [split; [reflexivity | exact Hsize]|]. split.
  - pose proof (post_broadcasts_field_or_default one_client
                  (JObj [("message", JStr "Sign XYZ")]) eq_refl Hsize) as (_ & _ & _ & H).
    exact (H eq_refl).
  - pose proof (post_broadcasts_field_or_default one_client (JObj []) eq_refl Hsize)
      as (_ & _ & H & _).
    exact (H [] eq_refl eq_refl).
Defined.

Lemma library_io_emit : library_emit io_emit.
Proof. by intros ev w. Qed.

Lemma library_failing_emit e : library_emit (failing_emit e).
Proof. by intros ev w. Qed.

(** What the [try] block leaves behind when it throws. *)
Lemma broadcast_with_throws emit message e w :
  library_emit emit ->
  fst (broadcast_with emit message w) = Throw e ->
  let w' := snd (broadcast_with emit message w) in
  connectedClients w' = connectedClients w /\
  process w' = process w /\
  responses w' = responses w.
Proof.
  intros Hemit. unfold broadcast_with, bind, clients_size, clients_keys, lift, console_log,
    Date_now, res_json. simpl.
  destruct (to_string message) as [text|e']; simpl; [|done].
  match goal with |- context [emit ?ev ?w0] =>
    destruct (Hemit ev w0) as (Hc & Hp & Hr); destruct (emit ev w0) as [[[]|e'] w1]
  end; simpl in *; [discriminate|done].
Qed.

Lemma caught_with_500 method (body : M unit) e w :
  fst (body w) = Throw e ->
  let w' := route (try_catch body (server_error method) w) in
  responses w' = responses (snd (body w)) ++
    [mkResponse 500 (Failure false "Server error" (Some (err_message e)))] /\
  process w' = process (snd (body w)) /\
  connectedClients w' = connectedClients (snd (body w)).
Proof.
  unfold try_catch. destruct (body w) as [[[]|e'] w1]; simpl; [discriminate|].
  by intros [= ->].
Qed.

(** C7: whenever the [try] block of a trigger route raises an exception, be
    it the conversion of the message for the log line or a failure of the
    library's [io.emit], the route catches it and answers 500 with success
    false, the message "Server error" and the exception's own message as
    [error]; the process keeps running and the table is what it was before
    the request. With Socket.IO's own broadcast the two routes are the
    routes [step] runs. *)
Theorem trigger_exception_is_500 emit w e :
  library_emit emit ->
  process w = Running -> JsMap.size (connectedClients w) <> 0%nat ->
  let failed w' :=
    responses w' = responses w ++
      [mkResponse 500 (Failure false "Server error" (Some (err_message e)))] /\
    process w' = Running /\
    connectedClients w' = connectedClients w in
  (forall req_body message,
     post_message req_body = Normal message ->
     fst (broadcast_with emit message (entered "POST" w)) = Throw e ->
     failed (route (post_trigger_sign_with emit req_body w))) /\
  (fst ((message <- get_message ;; broadcast_with emit message) (entered "GET" w)) = Throw e ->
   failed (route (get_trigger_sign_with emit w))) /\
  (forall req_body,
     step (PostTriggerSign req_body) w = route (post_trigger_sign_with io_emit req_body w)) /\
  step GetTriggerSign w = route (get_trigger_sign_with io_emit w).
Proof.
  intros Hemit Hrun Hsize failed. split_and!.
  - intros req_body message Hmessage Hthrow.
    assert (Hroute : route (post_trigger_sign_with emit req_body w) =
              route (try_catch (broadcast_with emit message) (server_error "POST")
                       (entered "POST" w))).
    { unfold post_trigger_sign_with, bind, console_log, clients_size, lift. simpl.
      rewrite (size_test w Hsize), Hmessage. reflexivity. }
    rewrite Hroute.
    destruct (caught_with_500 "POST" _ e _ Hthrow) as (H1 & H2 & H3).
    destruct (broadcast_with_throws emit message e _ Hemit Hthrow) as (Hc & Hp & Hr).
    unfold failed. split_and!.
    + by rewrite H1, Hr.
    + by rewrite H2, Hp.
    + by rewrite H3, Hc.
  - intros Hthrow.
    assert (Hroute : route (get_trigger_sign_with emit w) =
              route (try_catch (message <- get_message ;; broadcast_with emit message)
                       (server_error "GET") (entered "GET" w))).
    { unfold get_trigger_sign_with. unfold bind at 1 2. unfold console_log, clients_size.
      simpl. rewrite (size_test w Hsize). reflexivity. }
    rewrite Hroute.
    destruct (caught_with_500 "GET" _ e _ Hthrow) as (H1 & H2 & H3).
    assert (Hbody : (message <- get_message ;; broadcast_with emit message) (entered "GET" w) =
              broadcast_with emit (trigger_message GetTriggerSign w)
                (with_ticks (S (ticks w)) (entered "GET" w))).
    { unfold bind. by rewrite get_message_returns. }
    rewrite Hbody in Hthrow, H1, H2, H3.
    destruct (broadcast_with_throws emit _ e _ Hemit Hthrow) as (Hc & Hp & Hr).
    unfold failed. split_and!.
    + by rewrite H1, Hr.
    + by rewrite H2, Hp.
    + by rewrite H3, Hc.
  - intros req_body. unfold step. by rewrite Hrun.
  - unfold step. by rewrite Hrun.
Qed.

Lemma trigger_exception_is_500_witness :
  let boom := mkError PlainError "adapter closed" in
  let hostile := JObj [("toString", JNum 1)] in
  let w1 := route (get_trigger_sign_with (failing_emit boom) two_clients) in
  let w2 := step (PostTriggerSign (JObj [("message", hostile)])) two_clients in
  (responses w1 = [mkResponse 500 (Failure false "Server error" (Some "adapter closed"))] /\
   process w1 = Running /\
   connectedClients w1 = connectedClients two_clients) /\
  (responses w2 =
     [mkResponse 500
        (Failure false "Server error" (Some "Cannot convert object to primitive value"))] /\
   process w2 = Running /\
   connectedClients w2 = connectedClients two_clients).
Proof.
  assert (Hsize : JsMap.size (connectedClients two_clients) <> 0%nat)
    by (vm_compute; discriminate).
  split.
  - pose proof (trigger_exception_is_500 (failing_emit (mkError PlainError "adapter closed"))
                  two_clients (mkError PlainError "adapter closed")
                  (library_failing_emit _) eq_refl Hsize) as (_ & H & _).
    exact (H eq_refl).
  - pose proof (trigger_exception_is_500 io_emit two_clients cannot_convert
                  library_io_emit eq_refl Hsize) as (H & _ & Hstep & _).
    rewrite Hstep.
    exact (H (JObj [("message", JObj [("toString", JNum 1)])])
             (JObj [("toString", JNum 1)]) eq_refl eq_refl).
Defined.

(** C9: the three HTTP routes leave the table exactly as they found it, in
    every world; an event after which the table differs is a connection, a
    disconnection or a socket error. *)
Theorem routes_leave_the_table w ev :
  (is_http ev = true -> connectedClients (step ev w) = connectedClients w) /\
  (connectedClients (step ev w) <> connectedClients w -> mutates_registry ev = true).
Proof.
  split.
  - intros Hev. apply step_quiet. by destruct ev.
  - intros Hdiff. destruct (mutates_registry ev) eqn:Hm; [done|].
    exfalso. apply Hdiff. by apply step_quiet.
Qed.

Lemma routes_leave_the_table_witness :
  connectedClients (step (PostTriggerSign (JObj [("message", JStr "m1")])) two_clients)
    = connectedClients two_clients /\
  (connectedClients (step (Disconnect 0 "transport close") two_clients)
     <> connectedClients two_clients /\
   mutates_registry (Disconnect 0 "transport close") = true).
Proof.
  assert (Hdiff : connectedClients (step (Disconnect 0 "transport close") two_clients)
                  <> connectedClients two_clients) by (vm_compute; discriminate).
  split.
  - exact (proj1 (routes_leave_the_table two_clients
                    (PostTriggerSign (JObj [("message", JStr "m1")]))) eq_refl).
  - split; [exact Hdiff|].
    exact (proj2 (routes_leave_the_table two_clients (Disconnect 0 "transport close")) Hdiff).
Defined.

(** * Process exit *)

Lemma settle_running r :
  process (snd r) = Running ->
  process (settle r) = Running \/ exists e, process (settle r) = Crashed e.
Proof. destruct r as [[?|e] w]; simpl; eauto. Qed.

Lemma step_never_exits ev w :
  process w = Running -> (forall code error, ev <> ServerError code error) ->
  process (step ev w) = Running \/ exists e, process (step ev w) = Crashed e.
Proof.
  intros Hrun Hev.
  destruct handlers_keep_process as (Hp1 & Hp2 & Hp3 & Hp4 & Hp5 & Hp6 & _).
  destruct ev as [id hs|h reason|h error|h name data| | | | |code error].
  - left. by destruct (step_connection w id hs Hrun) as [[? _] _].
  - destruct (sockets w !! h) as [socket|] eqn:Hs;
      [|left; unfold step; by rewrite Hrun, Hs].
    destruct (connected socket) eqn:Hc;
      [|left; unfold step; by rewrite Hrun, Hs, Hc].
    left. by destruct (step_disconnect w h reason socket Hrun Hs Hc).
  - destruct (sockets w !! h) as [socket|] eqn:Hs;
      [|left; unfold step; by rewrite Hrun, Hs].
    left. by destruct (step_socket_error w h error socket Hrun Hs).
  - unfold step. rewrite Hrun.
    destruct (sockets w !! h) as [socket|]; [|by left].
    destruct (connected socket && listens socket name); [|by left].
    destruct (String.eqb name "clientMessage").
    { apply settle_running. by rewrite (Hp4 socket data w). }
    destruct (String.eqb name "signMessageResult"); [|by left].
    apply settle_running. by rewrite (Hp5 h socket data w).
  - left. unfold step. rewrite Hrun, route_process. by rewrite (Hp1 w).
  - left. unfold step. rewrite Hrun, route_process. by rewrite (Hp2 req_body w).
  - left. unfold step. rewrite Hrun, route_process. by rewrite (Hp3 w).
  - unfold step. rewrite Hrun. apply settle_running. by rewrite (Hp6 w).
  - by destruct (Hev code error).
Qed.

(** The diagnostic printed before the process exits. *)
Lemma step_server_error w code error :
  process w = Running ->
  let w' := step (ServerError code error) w in
  process w' = Exited 1 /\
  console w' = console w ++ [(Stderr, exit_diagnostic (PORT w) code error)].
Proof.
  intros Hrun. unfold step. rewrite Hrun.
  unfold on_server_error, exit_diagnostic, bind, the_PORT. simpl.
  by destruct (bool_decide (code = Some "EADDRINUSE")).
Qed.

(** C8 (as stated, refuted): a listen error that is not a port conflict, here
    [EACCES], also ends the process through [process.exit(1)]. *)
Lemma listen_permission_error_exits :
  let error := mkError PlainError "listen EACCES: permission denied 0.0.0.0:80" in
  Some "EACCES" <> Some "EADDRINUSE" /\
  process nobody = Running /\
  process (step (ServerError (Some "EACCES") error) nobody) = Exited 1.
Proof. split; [discriminate|]. by vm_compute. Qed.

(** C8 (amended): [process.exit] is called exactly by the handler of the HTTP
    server's error event, whatever the error: a port conflict ([EADDRINUSE])
    prints the port-in-use diagnostic and every other error prints the error
    itself, and both exit with code 1; no other event makes the program call
    [process.exit]. *)
Theorem exit_only_on_server_error w ev :
  process w = Running ->
  ((exists status, process (step ev w) = Exited status) <->
   (exists code error, ev = ServerError code error)) /\
  (forall code error,
     process (step (ServerError code error) w) = Exited 1 /\
     console (step (ServerError code error) w) =
       console w ++ [(Stderr, exit_diagnostic (PORT w) code error)]).
Proof.
  intros Hrun. split; [|intros code error; by apply step_server_error].
  split.
  - intros [status Hexit].
    destruct ev as [| | | | | | | |code error]; [..|by eauto]; exfalso.
    all: match type of Hexit with
         | process (step ?e _) = _ =>
             destruct (step_never_exits e _ Hrun) as [H|[x H]];
             [intros ??; discriminate | congruence | congruence]
         end.
  - intros (code & error & ->). exists 1.
    by destruct (step_server_error w code error Hrun).
Qed.

Lemma exit_only_on_server_error_witness :
  let conflict := mkError PlainError "listen EADDRINUSE: address already in use :::3000" in
  process nobody = Running /\
  process (step (ServerError (Some "EADDRINUSE") conflict) nobody) = Exited 1 /\
  (exists code error,
     ServerError (Some "EADDRINUSE") conflict = ServerError code error).
Proof.
  pose proof (exit_only_on_server_error nobody
    (ServerError (Some "EADDRINUSE")
       (mkError PlainError "listen EADDRINUSE: address already in use :::3000"))
    eq_refl) as [Hiff Hexit].
  split; [reflexivity|]. split; [exact (proj1 (Hexit _ _))|].
  apply Hiff. exists 1. exact (proj1 (Hexit _ _)).
Defined.

(** * Connections, removals and status *)

Lemma remove_by_returns socket r w :
  fst (remove_by socket r w) = Normal tt /\
  connectedClients (snd (remove_by socket r w)) =
    JsMap.delete (connectedClients w) (sock_id socket) /\
  process (snd (remove_by socket r w)) = process w.
Proof. by destruct r. Qed.

(** C6: removing a socket's record, by the disconnect handler or by the error
    handler, twice in a row leaves the table as the first removal left it,
    with the id absent; the second removal returns normally although the id
    is already gone. *)
Theorem removal_is_idempotent w socket first second :
  let once := snd (remove_by socket first w) in
  let twice := snd (remove_by socket second once) in
  fst (remove_by socket first w) = Normal tt /\
  JsMap.has (connectedClients once) (sock_id socket) = false /\
  fst (remove_by socket second once) = Normal tt /\
  connectedClients twice = connectedClients once /\
  JsMap.has (connectedClients twice) (sock_id socket) = false /\
  process twice = process w.
Proof.
  intros once twice.
  destruct (remove_by_returns socket first w) as (Hr1 & Hc1 & Hp1).
  destruct (remove_by_returns socket second once) as (Hr2 & Hc2 & Hp2).
  fold once in Hc1, Hp1. fold twice in Hc2, Hp2.
  assert (Hgone : JsMap.has (connectedClients once) (sock_id socket) = false).
  { rewrite Hc1. apply JsMapFacts.has_delete. }
  assert (Hsame : connectedClients twice = connectedClients once).
  { rewrite Hc2. by apply JsMapFacts.delete_absent. }
  split_and!; [done | done | done | done | by rewrite Hsame | congruence].
Qed.

(** C4: in every reachable world the table holds at most one record per id;
    a connection event for an id already in the table leaves the table, and
    so its size, unchanged, creates the session's socket with nothing sent to
    it and no listener, and sends nothing to any other socket. *)
Theorem duplicate_connection_is_ignored w id hs :
  reachable w ->
  one_record_per_id w /\
  (process w = Running -> JsMap.has (connectedClients w) id = true ->
   let w' := step (Connection id hs) w in
   connectedClients w' = connectedClients w /\
   JsMap.size (connectedClients w') = JsMap.size (connectedClients w) /\
   one_record_per_id w' /\
   sockets w' = sockets w ++ [fresh_socket id hs] /\
   received (fresh_socket id hs) = []).
Proof.
  intros Hreach. destruct (invariant_reachable w Hreach) as [Hone _].
  split; [done|]. intros Hrun Hhas.
  destruct (step_connection w id hs Hrun) as [_ Hstep]. rewrite Hhas in Hstep.
  destruct Hstep as [Hc Hs]. simpl.
  split_and!; [done | by rewrite Hc | | done | done].
  unfold one_record_per_id. by rewrite Hc.
Qed.

Lemma duplicate_connection_is_ignored_witness :
  let w' := step (Connection "A" sample_handshake) one_client in
  (reachable one_client /\ process one_client = Running /\
   JsMap.has (connectedClients one_client) "A" = true) /\
  connectedClients w' = connectedClients one_client /\
  sockets w' = sockets one_client ++ [fresh_socket "A" sample_handshake].
Proof.
  pose proof (duplicate_connection_is_ignored one_client "A" sample_handshake
                reachable_one_client) as [_ H].
  destruct (H eq_refl eq_refl) as (Hc & _ & _ & Hs & _).
  split; [split; [exact reachable_one_client | split; reflexivity]|].
  split; [exact Hc | exact Hs].
Defined.

Lemma step_status w :
  process w = Running ->
  responses (step GetStatus w) = responses w ++
    [mkResponse 200
       (StatusBody "online" (JsMap.size (connectedClients w))
          (map (fun client => mkSummary (client_id client) (connectedAt client))
             (JsMap.values (connectedClients w))))].
Proof. intros Hrun. unfold step. by rewrite Hrun. Qed.

Lemma status_answer_running w :
  process w = Running ->
  status_answer w =
    Some (mkResponse 200
            (StatusBody "online" (JsMap.size (connectedClients w))
               (map (fun client => mkSummary (client_id client) (connectedAt client))
                  (JsMap.values (connectedClients w))))).
Proof. intros Hrun. unfold status_answer. rewrite step_status by done. apply last_snoc. Qed.

(** C5: in every world the status route answers 200 with status "online",
    the size of the table as [connectedClients] and, as [clients], the
    records of the table projected to id and connection date. After sessions
    A then B connect it reports 1 then 2 clients; after A disconnects it
    reports 1 client, B alone. *)
Theorem status_reports_the_table w time env a b hs_a hs_b reason :
  (process w = Running ->
   responses (step GetStatus w) = responses w ++
     [mkResponse 200
        (StatusBody "online" (JsMap.size (connectedClients w))
           (map (fun client => mkSummary (client_id client) (connectedAt client))
              (JsMap.values (connectedClients w))))]) /\
  (a <> b ->
   let w1 := step (Connection a hs_a) (initial time env) in
   let w2 := step (Connection b hs_b) w1 in
   let w3 := step (Disconnect 0 reason) w2 in
   status_answer w1 =
     Some (mkResponse 200 (StatusBody "online" 1 [mkSummary a (time 0%nat)])) /\
   status_answer w2 =
     Some (mkResponse 200
             (StatusBody "online" 2 [mkSummary a (time 0%nat); mkSummary b (time 1%nat)])) /\
   status_answer w3 =
     Some (mkResponse 200 (StatusBody "online" 1 [mkSummary b (time 1%nat)]))).
Proof.
  split; [apply step_status|].
  intros Hab w1 w2 w3.
  assert (Hab' : String.eqb a b = false) by by apply String.eqb_neq.
  assert (Hba : String.eqb b a = false) by by apply String.eqb_neq.
  pose proof (step_connection (initial time env) a hs_a eq_refl)
    as ((Hp1 & Ht1 & Hk1) & Hc1 & Hs1).
  fold w1 in Hp1, Ht1, Hk1, Hc1, Hs1. clearbody w1. simpl in Ht1, Hk1, Hc1, Hs1.
  pose proof (step_connection w1 b hs_b Hp1) as ((Hp2 & Ht2 & Hk2) & Hstep2).
  fold w2 in Hp2, Ht2, Hk2, Hstep2. clearbody w2.
  rewrite Hc1 in Hstep2. simpl in Hstep2. rewrite Hab' in Hstep2. simpl in Hstep2.
  destruct Hstep2 as [Hc2 Hs2]. rewrite Hk1, Ht1 in Hc2. rewrite Hs1 in Hs2.
  assert (H0 : sockets w2 !! 0%nat = Some (welcomed_socket a hs_a)) by by rewrite Hs2.
  pose proof (step_disconnect w2 0 reason _ Hp2 H0 eq_refl) as (Hp3 & _ & Hc3).
  fold w3 in Hp3, Hc3. clearbody w3. rewrite Hc2 in Hc3. simpl in Hc3.
  rewrite String.eqb_refl, Hba in Hc3.
  rewrite !status_answer_running by done.
  rewrite Hc1, Hc2, Hc3. done.
Qed.

Lemma status_reports_the_table_witness :
  let w1 := step (Connection "A" sample_handshake) nobody in
  let w2 := step (Connection "B" sample_handshake) w1 in
  let w3 := step (Disconnect 0 "transport close") w2 in
  responses (step GetStatus w2) =
    [mkResponse 200
       (StatusBody "online" 2
          [mkSummary "A" 1700000000000; mkSummary "B" 1700000000100])] /\
  status_answer w3 =
    Some (mkResponse 200 (StatusBody "online" 1 [mkSummary "B" 1700000000100])).
Proof.
  pose proof (status_reports_the_table
                (step (Connection "B" sample_handshake)
                   (step (Connection "A" sample_handshake) nobody))
                sample_clock None "A" "B" sample_handshake sample_handshake
                "transport close") as [Hstatus Hscenario].
  split.
  - exact (Hstatus eq_refl).
  - assert (Hab : "A" <> "B") by discriminate.
    exact (proj2 (proj2 (Hscenario Hab))).
Defined.

(** * Signature reports *)

Lemma sign_result_returns h socket props s w :
  own_property props "message" = Some (JStr s) ->
  printable (default JUndefined (own_property props "account")) ->
  absent_or_string (default JUndefined (own_property props "signature")) ->
  let r := on_signMessageResult h socket (JObj props) w in
  fst r = Normal tt /\
  sockets (snd r) = alter (deliver (serverMessage (ack_text s))) h (sockets w) /\
  process (snd r) = process w.
Proof.
  intros Hm [text Ha] Hs.
  unfold on_signMessageResult, bind, lift, console_log, socket_emit,
    signature_digest, acknowledgement, cbind, get_prop. simpl.
  rewrite Ha, Hm. simpl.
  destruct (default JUndefined (own_property props "signature")); try done.
Qed.

Lemma acknowledgement_throws data :
  (forall s, get_prop data "message" <> Normal (JStr s)) ->
  is_throw (acknowledgement data) = true.
Proof.
  intros H. unfold acknowledgement, cbind.
  destruct (get_prop data "message") as [m|e] eqn:Hm; [|done].
  destruct m; try done. by destruct (H s).
Qed.

Lemma sign_result_throws h socket data w :
  is_throw (acknowledgement data) = true ->
  let r := on_signMessageResult h socket data w in
  is_throw (fst r) = true /\ sockets (snd r) = sockets w.
Proof.
  intros H.
  unfold on_signMessageResult, bind, lift, console_log, socket_emit. simpl.
  destruct (get_prop data "account") as [account|]; [|done]. simpl.
  destruct (to_string account); [|done]. simpl.
  destruct (get_prop data "message") as [message|]; [|done]. simpl.
  destruct (to_string message); [|done]. simpl.
  destruct (signature_digest data); [|done]. simpl.
  destruct (acknowledgement data); [discriminate|done].
Qed.

Lemma step_sign_result w h socket data :
  process w = Running -> sockets w !! h = Some socket ->
  connected socket = true -> listens socket "signMessageResult" = true ->
  step (Packet h "signMessageResult" data) w =
    settle (on_signMessageResult h socket data w).
Proof.
  intros Hrun Hs Hc Hl. unfold step. by rewrite Hrun, Hs, Hc, Hl.
Qed.

(** C10 (as stated, refuted): a report whose [message] is a string but whose
    [signature] is the number 5 makes the handler throw at the log line of
    the signature; no acknowledgement is sent and the exception is
    uncaught. *)
Lemma sign_result_numeric_signature_throws :
  let data := JObj [("account", JStr "0xabc"); ("message", JStr "hi");
                    ("signature", JNum 5); ("timestamp", JStr "2024-01-01T00:00:00.000Z")] in
  let w' := step (Packet 0 "signMessageResult" data) one_client in
  get_prop data "message" = Normal (JStr "hi") /\
  process one_client = Running /\
  process w' = Crashed (not_a_function "data.signature?.substring") /\
  sockets w' = sockets one_client.
Proof. vm_compute. by split_and!. Qed.

(** C10 (amended): on a connected socket that listens for
    [signMessageResult], a report that is an object whose [message] is a
    string, whose [account] converts to a string and whose [signature] is a
    string or absent gets exactly one acknowledgement [serverMessage], sent
    to the originating socket only, quoting the message cut to 30 characters
    with "..." appended when it is longer; a report whose [message] is absent
    or not a string makes the construction of the acknowledgement, and so the
    handler, throw: nothing is sent and the exception is uncaught. *)
Theorem sign_result_acknowledged w h socket data :
  process w = Running -> sockets w !! h = Some socket ->
  connected socket = true -> listens socket "signMessageResult" = true ->
  let w' := step (Packet h "signMessageResult" data) w in
  (forall props s,
     data = JObj props ->
     own_property props "message" = Some (JStr s) ->
     printable (default JUndefined (own_property props "account")) ->
     absent_or_string (default JUndefined (own_property props "signature")) ->
     process w' = Running /\
     sockets w' !! h =
       Some (mkSocket (sock_id socket) (handshake socket) true (listeners socket)
               (received socket ++ [serverMessage (ack_text s)])) /\
     (forall h', h' <> h -> sockets w' !! h' = sockets w !! h')) /\
  ((forall s, get_prop data "message" <> Normal (JStr s)) ->
   is_throw (acknowledgement data) = true /\
   (exists e, process w' = Crashed e) /\
   sockets w' = sockets w).
Proof.
  intros Hrun Hs Hc Hl w'. unfold w'.
  rewrite (step_sign_result w h socket data) by done. split.
  - intros props s -> Hm Ha Hsig.
    destruct (sign_result_returns h socket props s w Hm Ha Hsig) as (Hr & Hsock & Hp).
    destruct (on_signMessageResult h socket (JObj props) w) as [[[]|e] w1];
      simpl in *; [|done].
    rewrite Hsock. split_and!.
    + congruence.
    + rewrite list_lookup_alter_eq, Hs. simpl. unfold deliver. by rewrite Hc.
    + intros h' Hne. by rewrite list_lookup_alter_ne.
  - intros Hm. pose proof (acknowledgement_throws data Hm) as Hack.
    destruct (sign_result_throws h socket data w Hack) as (Hr & Hsock).
    destruct (on_signMessageResult h socket data w) as [[[]|e] w1];
      simpl in *; [done|].
    split_and!; [done | by exists e | done].
Qed.

Lemma sign_result_acknowledged_witness :
  let data := JObj [("account", JStr "0xabc");
                    ("message", JStr "Please sign this message from the server.");
                    ("signature", JStr "0x0123456789abcdef0123456789abcdef")] in
  let w' := step (Packet 0 "signMessageResult" data) one_client in
  (process one_client = Running /\
   sockets one_client !! 0%nat = Some (welcomed_socket "A" sample_handshake)) /\
  process w' = Running /\
  received <$> sockets w' !! 0%nat =
    Some [serverMessage "Connected to MetaMask automation server";
          serverMessage ("Signature received for message: " +:+ dquote +:+
                         "Please sign this message from ..." +:+ dquote)].
Proof.
  pose proof (sign_result_acknowledged one_client 0 (welcomed_socket "A" sample_handshake)
    (JObj [("account", JStr "0xabc");
           ("message", JStr "Please sign this message from the server.");
           ("signature", JStr "0x0123456789abcdef0123456789abcdef")])
    eq_refl eq_refl eq_refl eq_refl) as [H _].
  destruct (H _ "Please sign this message from the server." eq_refl eq_refl
              (ex_intro _ "0xabc" eq_refl) I) as (Hp & Hs & _).
  split; [split; reflexivity|]. split; [exact Hp|].
  rewrite Hs. reflexivity.
Defined.

(** * Further properties of the table and the connection handlers *)

Module JsMapMore.
Import JsMap.

Section More.
Context {V : Type}.
Implicit Types (m : JsMap.t V) (k : string) (v : V).

Lemma delete_app m1 m2 k : delete (m1 ++ m2) k = delete m1 k ++ delete m2 k.
Proof.
  induction m1 as [|[k' v'] m1 IH]; simpl; [done|].
  destruct (String.eqb k' k); simpl; by rewrite IH.
Qed.

Lemma delete_set_absent m k v : has m k = false -> delete (set m k v) k = m.
Proof.
  intros H. rewrite JsMapFacts.set_absent by done.
  rewrite delete_app, JsMapFacts.delete_absent by done.
  simpl. rewrite String.eqb_refl. apply app_nil_r.
Qed.

Lemma elem_of_delete m k k' v :
  (k', v) ∈ delete m k <-> (k', v) ∈ m /\ k' <> k.
Proof.
  induction m as [|[k0 v0] m IH]; simpl.
  - split; [intros H; inversion H | intros [H _]; inversion H].
  - destruct (String.eqb k0 k) eqn:E.
    + apply String.eqb_eq in E as ->. rewrite IH, elem_of_cons.
      split; [tauto|]. intros [[Heq|Hin] Hne]; [congruence | tauto].
    + apply String.eqb_neq in E. rewrite !elem_of_cons, IH.
      split; [|tauto]. intros [Heq|[Hin Hne]]; [|tauto].
      split; [by left | congruence].
Qed.

Lemma size_delete_present m k :
  NoDup (keys m) -> has m k = true -> S (size (delete m k)) = size m.
Proof.
  induction m as [|[k' v'] m IH]; simpl; [discriminate|].
  intros Hnd Hhas. apply NoDup_cons in Hnd as [Hk' Hnd].
  destruct (String.eqb k' k) eqn:E.
  - apply String.eqb_eq in E as ->.
    rewrite JsMapFacts.delete_absent; [done|]. by apply JsMapFacts.has_false_keys.
  - simpl in Hhas. unfold size in *. simpl. f_equal. by apply IH.
Qed.

Lemma values_app m1 m2 : values (m1 ++ m2) = values m1 ++ values m2.
Proof. unfold values. apply map_app. Qed.
End More.
End JsMapMore.

Lemma run_app evs1 evs2 w : run (evs1 ++ evs2) w = run evs2 (run evs1 w).
Proof. unfold run. apply fold_left_app. Qed.

Lemma run_cons ev evs w : run (ev :: evs) w = run evs (step ev w).
Proof. reflexivity. Qed.

Lemma reachable_step ev w : reachable w -> reachable (step ev w).
Proof.
  intros (clock & env & evs & ->). exists clock, env, (evs ++ [ev]).
  by rewrite run_app.
Qed.

Lemma reachable_run evs w : reachable w -> reachable (run evs w).
Proof.
  revert w. induction evs as [|ev evs IH]; intros w Hw; [done|].
  rewrite run_cons. by apply IH, reachable_step.
Qed.

Lemma step_connection_fresh w id hs :
  process w = Running -> JsMap.has (connectedClients w) id = false ->
  let w' := step (Connection id hs) w in
  process w' = Running /\
  connectedClients w' =
    connectedClients w ++
      [(id, mkClientInfo id (address hs) (user_agent hs) (clock w (ticks w)))] /\
  sockets w' = sockets w ++ [welcomed_socket id hs].
Proof.
  intros Hrun Hhas. destruct (step_connection w id hs Hrun) as [(Hp & _) Hstep].
  rewrite Hhas in Hstep. destruct Hstep as [Hc Hs].
  split; [done|]. split; [|done].
  simpl. rewrite Hc. by apply JsMapFacts.set_absent.
Qed.

(** X1: sessions that connect with pairwise distinct ids, none of them in the
    table, are appended to the table in their order of arrival; the size
    grows by their number. *)
Theorem table_follows_connections sessions w :
  process w = Running ->
  NoDup (map fst sessions) ->
  (forall id, id ∈ map fst sessions -> id ∉ JsMap.keys (connectedClients w)) ->
  let w' := run (connections sessions) w in
  process w' = Running /\
  JsMap.keys (connectedClients w') = JsMap.keys (connectedClients w) ++ map fst sessions /\
  JsMap.size (connectedClients w') =
    (JsMap.size (connectedClients w) + length sessions)%nat.
Proof.
  revert w. induction sessions as [|[id hs] sessions IH]; intros w Hrun Hnd Hnew w'.
  - unfold w'. simpl. split; [done|]. rewrite app_nil_r. split; [done | lia].
  - apply NoDup_cons in Hnd as [Hid Hnd].
    assert (Hhas : JsMap.has (connectedClients w) id = false).
    { apply JsMapFacts.has_false_keys. apply Hnew. by left. }
    destruct (step_connection_fresh w id hs Hrun Hhas) as (Hp & Hc & _).
    unfold w'. change (connections ((id, hs) :: sessions))
      with (Connection id hs :: connections sessions).
    rewrite run_cons.
    destruct (IH (step (Connection id hs) w) Hp Hnd) as (Hp' & Hk' & Hs').
    { intros id' Hid'. rewrite Hc. unfold JsMap.keys. rewrite map_app. simpl.
      rewrite elem_of_app, list_elem_of_singleton.
      intros [Hin | ->]; [|done]. apply (Hnew id'); [by right | done]. }
    split; [done|]. rewrite Hk', Hs', Hc.
    unfold JsMap.keys, JsMap.size. rewrite map_app, length_app. simpl.
    rewrite <- app_assoc. split; [done | lia].
Qed.

Lemma table_follows_connections_witness :
  let sessions := [("A", sample_handshake); ("B", sample_handshake); ("C", sample_handshake)] in
  JsMap.keys (connectedClients (run (connections sessions) nobody)) = ["A"; "B"; "C"] /\
  JsMap.size (connectedClients (run (connections sessions) nobody)) = 3%nat.
Proof.
  assert (Hnd : NoDup (map fst [("A", sample_handshake); ("B", sample_handshake);
                                ("C", sample_handshake)])).
  { simpl.
    repeat (apply NoDup_cons_2;
            [intros H; repeat (apply elem_of_cons in H as [H|H]; [discriminate|]);
             inversion H|]).
    apply NoDup_nil_2. }
  destruct (table_follows_connections
              [("A", sample_handshake); ("B", sample_handshake); ("C", sample_handshake)]
              nobody eq_refl Hnd) as (_ & Hk & Hs).
  { intros id _ Hin. inversion Hin. }
  split; [exact Hk | exact Hs].
Defined.

Lemma listens_welcomed id hs name :
  name ∈ ["disconnect"; "error"; "clientMessage"; "signMessageResult"] ->
  listens (welcomed_socket id hs) name = true.
Proof. intros H. by apply bool_decide_eq_true. Qed.

(** X2: a session that connects with an id absent from the table and then
    disconnects leaves the table exactly as it was before it came; its socket
    stays in the namespace's history, closed. *)
Theorem connect_then_disconnect_restores_table w id hs reason :
  process w = Running -> JsMap.has (connectedClients w) id = false ->
  let h := length (sockets w) in
  let w' := step (Disconnect h reason) (step (Connection id hs) w) in
  connectedClients w' = connectedClients w /\
  sockets w' = sockets w ++ [close (welcomed_socket id hs)] /\
  process w' = Running.
Proof.
  intros Hrun Hhas h w'.
  destruct (step_connection w id hs Hrun) as [(Hp & _) Hstep].
  rewrite Hhas in Hstep. destruct Hstep as [Hc Hs].
  assert (Hh : sockets (step (Connection id hs) w) !! h = Some (welcomed_socket id hs)).
  { rewrite Hs, lookup_app_r by (unfold h; lia). unfold h. by rewrite Nat.sub_diag. }
  destruct (step_disconnect _ h reason _ Hp Hh eq_refl) as (Hp' & Hs' & Hc').
  fold w' in Hp', Hs', Hc'. split_and!; [|by rewrite Hs', Hs; apply alter_last | done].
  rewrite Hc', Hc. simpl. by apply JsMapMore.delete_set_absent.
Qed.

Lemma connect_then_disconnect_restores_table_witness :
  let w' := step (Disconnect 1 "transport close")
              (step (Connection "B" sample_handshake) one_client) in
  connectedClients w' = connectedClients one_client.
Proof.
  exact (proj1 (connect_then_disconnect_restores_table one_client "B" sample_handshake
                  "transport close" eq_refl eq_refl)).
Defined.

(** The table after an event, for the three events that write to it. *)
Lemma step_table ev w :
  connectedClients (step ev w) = connectedClients w \/
  (exists id info, JsMap.has (connectedClients w) id = false /\ client_id info = id /\
                   connectedClients (step ev w) = connectedClients w ++ [(id, info)]) \/
  (exists id, connectedClients (step ev w) = JsMap.delete (connectedClients w) id).
Proof.
  destruct (process w) eqn:Hrun; [|left; rewrite step_stopped; [done | congruence]..].
  destruct (mutates_registry ev) eqn:Hev; [|left; by apply step_quiet].
  destruct ev as [id hs|h reason|h error| | | | | |]; try discriminate.
  - destruct (JsMap.has (connectedClients w) id) eqn:Hhas.
    + left. destruct (step_connection w id hs Hrun) as [_ Hstep].
      rewrite Hhas in Hstep. by destruct Hstep.
    + right; left. destruct (step_connection_fresh w id hs Hrun Hhas) as (_ & Hc & _).
      eexists id, _. split; [done|]. split; [|exact Hc]. done.
  - destruct (sockets w !! h) as [socket|] eqn:Hs;
      [|left; unfold step; by rewrite Hrun, Hs].
    destruct (connected socket) eqn:Hcon;
      [|left; unfold step; by rewrite Hrun, Hs, Hcon].
    destruct (step_disconnect w h reason socket Hrun Hs Hcon) as (_ & _ & Hc).
    destruct (listens socket "disconnect"); [right; right; by eexists | by left].
  - destruct (sockets w !! h) as [socket|] eqn:Hs;
      [|left; unfold step; by rewrite Hrun, Hs].
    destruct (step_socket_error w h error socket Hrun Hs) as (_ & _ & Hc).
    destruct (connected socket && listens socket "error");
      [right; right; by eexists | by left].
Qed.

(** X3: a record, once stored, is never modified: after any event, a record
    of the table is either still there as it was, or its id has left the
    table. *)
Theorem records_are_never_modified w ev id info :
  (id, info) ∈ connectedClients w ->
  (id, info) ∈ connectedClients (step ev w) \/
  id ∉ JsMap.keys (connectedClients (step ev w)).
Proof.
  intros Hin.
  destruct (step_table ev w) as [-> | [(id' & info' & _ & _ & ->) | (id' & ->)]].
  - by left.
  - left. apply elem_of_app. by left.
  - destruct (decide (id = id')) as [->|Hne].
    + right. rewrite JsMapFacts.elem_of_keys_delete. tauto.
    + left. by apply JsMapMore.elem_of_delete.
Qed.

Lemma records_are_never_modified_witness :
  let first := mkClientInfo "A" "10.0.0.7" (Some "Mozilla/5.0") 1700000000000 in
  ("A", first) ∈ connectedClients one_client /\
  ("A", first) ∈ connectedClients
    (step (Connection "A" (mkHandshake "10.9.9.9" None)) one_client).
Proof.
  assert (Hin : ("A", mkClientInfo "A" "10.0.0.7" (Some "Mozilla/5.0") 1700000000000)
                ∈ connectedClients one_client) by (vm_compute; apply list_elem_of_here).
  split; [exact Hin|].
  destruct (records_are_never_modified one_client
              (Connection "A" (mkHandshake "10.9.9.9" None)) _ _ Hin) as [H|H];
    [exact H|].
  exfalso. apply H. vm_compute. apply list_elem_of_here.
Defined.

Lemma records_carry_their_key_step ev w :
  records_carry_their_key w -> records_carry_their_key (step ev w).
Proof.
  unfold records_carry_their_key. intros H.
  destruct (step_table ev w) as [-> | [(id & info & _ & Hid & ->) | (id & ->)]].
  - done.
  - apply Forall_app. split; [done|]. by apply Forall_singleton.
  - apply Forall_forall. intros [k v] Hin.
    apply JsMapMore.elem_of_delete in Hin as [Hin _].
    by apply (proj1 (Forall_forall _ _) H (k, v)).
Qed.

Lemma records_carry_their_key_reachable w :
  reachable w -> records_carry_their_key w.
Proof.
  intros (clock & env & evs & ->).
  assert (H : records_carry_their_key (initial clock env)) by apply Forall_nil_2.
  revert H. generalize (initial clock env).
  induction evs as [|ev evs IH]; intros w H; [done|].
  rewrite run_cons. apply IH. by apply records_carry_their_key_step.
Qed.

Lemma ids_of_values (m : JsMap.t ClientInfo) :
  Forall (fun entry => client_id (snd entry) = fst entry) m ->
  map client_id (JsMap.values m) = JsMap.keys m.
Proof.
  induction 1 as [|[k v] m Hk Hm IH]; [done|].
  unfold JsMap.values, JsMap.keys in *. simpl in *. by rewrite Hk, IH.
Qed.

(** X4: the status route and the trigger routes describe the same clients: in
    every reachable world with at least one client, the ids of the [clients]
    of a status answer are, in the same order, the [clients] of the answer to
    a GET trigger, and [connectedClients] is their number. *)
Theorem status_and_trigger_agree w :
  reachable w -> process w = Running -> JsMap.size (connectedClients w) <> 0%nat ->
  exists n summaries text ids messageId,
    status_answer w = Some (mkResponse 200 (StatusBody "online" n summaries)) /\
    last (responses (step GetTriggerSign w)) =
      Some (mkResponse 200 (TriggerSent true text ids messageId)) /\
    map summary_id summaries = ids /\
    n = length ids.
Proof.
  intros Hreach Hrun Hsize.
  destruct (step_trigger w GetTriggerSign Hrun eq_refl Hsize _ eq_refl) as (_ & Hr & _).
  eexists _, _, _, _, _. split; [by apply status_answer_running|].
  split; [rewrite Hr; apply last_snoc|].
  rewrite map_map. simpl. split.
  - apply ids_of_values. by apply records_carry_their_key_reachable.
  - by rewrite JsMapFacts.size_keys.
Qed.

Lemma status_and_trigger_agree_witness :
  exists n summaries text messageId,
    status_answer two_clients = Some (mkResponse 200 (StatusBody "online" n summaries)) /\
    last (responses (step GetTriggerSign two_clients)) =
      Some (mkResponse 200 (TriggerSent true text ["A"; "B"] messageId)) /\
    map summary_id summaries = ["A"; "B"].
Proof.
  assert (Hsize : JsMap.size (connectedClients two_clients) <> 0%nat)
    by (vm_compute; discriminate).
  destruct (status_and_trigger_agree two_clients reachable_two_clients eq_refl Hsize)
    as (n & summaries & text & ids & messageId & Hs & Ht & Hids & _).
  assert (Hkeys : ids = ["A"; "B"]).
  { assert (H : last (responses (step GetTriggerSign two_clients)) =
                Some (mkResponse 200
                        (TriggerSent true "Sign request sent to 2 client(s)" ["A"; "B"]
                           "1700000000300"))) by (vm_compute; reflexivity).
    rewrite H in Ht. by injection Ht as _ <- _. }
  rewrite Hkeys in Ht, Hids. exists n, summaries, text, messageId.
  split; [exact Hs|]. split; [exact Ht | exact Hids].
Defined.

Lemma connected_sockets_elem w s :
  s ∈ connected_sockets w <-> s ∈ sockets w /\ connected s = true.
Proof.
  unfold connected_sockets. rewrite !list_elem_of_In. apply filter_In.
Qed.

(** X5: the number of clients the server reports never exceeds the number of
    connected sockets, which are the receivers of a broadcast: in every
    reachable world the table is no larger than the list of connected
    sockets. *)
Theorem table_never_exceeds_connected_sockets w :
  reachable w ->
  (JsMap.size (connectedClients w) <= length (connected_sockets w))%nat.
Proof.
  intros Hreach. destruct (invariant_reachable w Hreach) as [Hone Hlive].
  rewrite <- JsMapFacts.size_keys.
  rewrite <- (length_map sock_id (connected_sockets w)).
  apply submseteq_length, NoDup_submseteq; [exact Hone|].
  intros id Hid. destruct (Hlive id Hid) as (h & s & Hs & Hsid & Hc & _).
  rewrite <- Hsid. apply list_elem_of_fmap_2. apply connected_sockets_elem.
  split; [|done]. by eapply list_elem_of_lookup_2.
Qed.

Lemma table_never_exceeds_connected_sockets_witness :
  let w := step (SocketError 0 (mkError PlainError "transport error")) two_clients in
  JsMap.size (connectedClients w) = 1%nat /\ length (connected_sockets w) = 2%nat /\
  (JsMap.size (connectedClients w) <= length (connected_sockets w))%nat.
Proof.
  assert (Hreach : reachable
            (step (SocketError 0 (mkError PlainError "transport error")) two_clients)).
  { apply reachable_step. exact reachable_two_clients. }
  split; [reflexivity|]. split; [reflexivity|].
  exact (table_never_exceeds_connected_sockets _ Hreach).
Defined.

(** X6: a socket error removes the socket's record but does not disconnect
    the socket: a trigger request that follows still delivers its
    [triggerSign] event to that socket, although the socket's id is missing
    from the [clients] of the answer. *)
Theorem errored_socket_still_receives w h socket error ev text :
  process w = Running -> sockets w !! h = Some socket ->
  connected socket = true -> listens socket "error" = true ->
  let w1 := step (SocketError h error) w in
  is_trigger ev = true -> JsMap.size (connectedClients w1) <> 0%nat ->
  to_string (trigger_message ev w1) = Normal text ->
  let w2 := step ev w1 in
  let event := triggerSign (trigger_message ev w1) (trigger_id ev w1) in
  (sock_id socket ∉ JsMap.keys (connectedClients w1)) /\
  (exists s', sockets w2 !! h = Some s' /\ received s' = received socket ++ [event]) /\
  (exists sent, last (responses w2) =
     Some (mkResponse 200
             (TriggerSent true sent (JsMap.keys (connectedClients w1)) (trigger_id ev w1)))).
Proof.
  intros Hrun Hs Hc Hl w1 Hev Hsize Htext w2 event.
  destruct (step_socket_error w h error socket Hrun Hs) as (Hp1 & Hs1 & Hc1).
  fold w1 in Hp1, Hs1, Hc1. rewrite Hc, Hl in Hc1. simpl in Hc1.
  destruct (step_trigger w1 ev Hp1 Hev Hsize text Htext) as (Hs2 & Hr2 & _).
  fold w2 in Hs2, Hr2. fold event in Hs2. split_and!.
  - rewrite Hc1, JsMapFacts.elem_of_keys_delete. tauto.
  - exists (deliver event socket). rewrite Hs2, Hs1, list_lookup_fmap, Hs.
    split; [done|]. unfold deliver. by rewrite Hc.
  - eexists. rewrite Hr2. apply last_snoc.
Qed.

Lemma errored_socket_still_receives_witness :
  let w1 := step (SocketError 0 (mkError PlainError "transport error")) two_clients in
  let w2 := step (PostTriggerSign (JObj [("message", JStr "m1")])) w1 in
  ("A" ∉ JsMap.keys (connectedClients w1)) /\
  (exists s', sockets w2 !! 0%nat = Some s' /\
     received s' = [serverMessage "Connected to MetaMask automation server";
                    triggerSign (JStr "m1") "1700000000200"]).
Proof.
  assert (Hsize : JsMap.size (connectedClients
            (step (SocketError 0 (mkError PlainError "transport error")) two_clients))
          <> 0%nat) by (vm_compute; discriminate).
  destruct (errored_socket_still_receives two_clients 0 (welcomed_socket "A" sample_handshake)
              (mkError PlainError "transport error")
              (PostTriggerSign (JObj [("message", JStr "m1")])) "m1"
              eq_refl eq_refl eq_refl eq_refl eq_refl Hsize eq_refl) as (Hout & Hin & _).
  split; [exact Hout | exact Hin].
Defined.

(** X7: the disconnection of a registered client lowers the size of the
    table, the count the status route reports, by exactly one; the
    disconnection of a socket whose id is not in the table leaves it
    unchanged. *)
Theorem disconnect_lowers_count_by_one w h socket reason :
  reachable w -> process w = Running -> sockets w !! h = Some socket ->
  connected socket = true -> listens socket "disconnect" = true ->
  let w' := step (Disconnect h reason) w in
  (JsMap.has (connectedClients w) (sock_id socket) = true ->
   S (JsMap.size (connectedClients w')) = JsMap.size (connectedClients w)) /\
  (JsMap.has (connectedClients w) (sock_id socket) = false ->
   connectedClients w' = connectedClients w).
Proof.
  intros Hreach Hrun Hs Hc Hl w'.
  destruct (invariant_reachable w Hreach) as [Hone _].
  destruct (step_disconnect w h reason socket Hrun Hs Hc) as (_ & _ & Htable).
  fold w' in Htable. rewrite Hl in Htable. rewrite Htable. split; intros Hhas.
  - by apply JsMapMore.size_delete_present.
  - by apply JsMapFacts.delete_absent.
Qed.

Lemma disconnect_lowers_count_by_one_witness :
  JsMap.size (connectedClients two_clients) = 2%nat /\
  S (JsMap.size (connectedClients (step (Disconnect 0 "transport close") two_clients)))
    = JsMap.size (connectedClients two_clients).
Proof.
  split; [reflexivity|].
  exact (proj1 (disconnect_lowers_count_by_one two_clients 0
                  (welcomed_socket "A" sample_handshake) "transport close"
                  reachable_two_clients eq_refl eq_refl eq_refl eq_refl) eq_refl).
Defined.

Lemma step_packet_deaf w h socket name data :
  sockets w !! h = Some socket -> listens socket name = false ->
  step (Packet h name data) w = w.
Proof.
  intros Hs Hl. unfold step. destruct (process w); [|done..].
  by rewrite Hs, Hl, andb_false_r.
Qed.

(** X8: when a second session connects under an id that is already in the
    table, the record follows the first session only: the second session's
    disconnection and packets change nothing, while the first session's
    disconnection removes the record although the second session, still
    connected, carries that id. *)
Theorem record_follows_the_first_session w id hs hs' reason :
  process w = Running -> JsMap.has (connectedClients w) id = false ->
  let first := length (sockets w) in
  let second := S (length (sockets w)) in
  let w2 := step (Connection id hs') (step (Connection id hs) w) in
  sockets w2 = sockets w ++ [welcomed_socket id hs; fresh_socket id hs'] /\
  JsMap.has (connectedClients w2) id = true /\
  connectedClients (step (Disconnect second reason) w2) = connectedClients w2 /\
  (forall name data, step (Packet second name data) w2 = w2) /\
  connectedClients (step (Disconnect first reason) w2) = connectedClients w /\
  sockets (step (Disconnect first reason) w2) !! second = Some (fresh_socket id hs').
Proof.
  intros Hrun Hhas first second w2.
  destruct (step_connection_fresh w id hs Hrun Hhas) as (Hp1 & Hc1 & Hs1).
  set (w1 := step (Connection id hs) w) in *.
  assert (Hhas1 : JsMap.has (connectedClients w1) id = true).
  { apply JsMapFacts.has_keys. rewrite Hc1. unfold JsMap.keys. rewrite map_app.
    apply elem_of_app. right. by left. }
  destruct (step_connection w1 id hs' Hp1) as [(Hp2 & _) Hstep].
  rewrite Hhas1 in Hstep. destruct Hstep as [Hc2 Hs2]. fold w2 in Hp2, Hc2, Hs2.
  assert (Hsock : sockets w2 = sockets w ++ [welcomed_socket id hs; fresh_socket id hs']).
  { rewrite Hs2, Hs1, <- app_assoc. done. }
  assert (Hfirst : sockets w2 !! first = Some (welcomed_socket id hs)).
  { rewrite Hsock, lookup_app_r by (unfold first; lia). unfold first.
    by rewrite Nat.sub_diag. }
  assert (Hsecond : sockets w2 !! second = Some (fresh_socket id hs')).
  { rewrite Hsock, lookup_app_r by (unfold second; lia). unfold second.
    by replace (S (length (sockets w)) - length (sockets w))%nat with 1%nat by lia. }
  split_and!.
  - exact Hsock.
  - by rewrite Hc2.
  - by destruct (step_disconnect w2 second reason _ Hp2 Hsecond eq_refl) as (_ & _ & ->).
  - intros name data. by apply (step_packet_deaf w2 second (fresh_socket id hs')).
  - destruct (step_disconnect w2 first reason _ Hp2 Hfirst eq_refl) as (_ & _ & ->).
    rewrite listens_welcomed by (by left). rewrite Hc2, Hc1. simpl.
    rewrite JsMapMore.delete_app, JsMapFacts.delete_absent by done.
    simpl. rewrite String.eqb_refl. apply app_nil_r.
  - destruct (step_disconnect w2 first reason _ Hp2 Hfirst eq_refl) as (_ & -> & _).
    rewrite list_lookup_alter_ne by (unfold first, second; lia). exact Hsecond.
Qed.

Lemma record_follows_the_first_session_witness :
  let w2 := step (Connection "B" sample_handshake) two_clients in
  JsMap.keys (connectedClients w2) = ["A"; "B"] /\
  connectedClients (step (Disconnect 2 "transport close") w2) = connectedClients w2 /\
  connectedClients (step (Disconnect 1 "transport close") w2) = connectedClients one_client.
Proof.
  pose proof (record_follows_the_first_session one_client "B" sample_handshake
                sample_handshake "transport close" eq_refl eq_refl)
    as (_ & _ & Hsecond & _ & Hfirst & _).
  split; [reflexivity|]. split; [exact Hsecond | exact Hfirst].
Defined.

(** * Further properties of the routes and of the signature reports *)

(** X9: every trigger request is answered exactly once, and the process keeps
    running: with 404 on an empty table, with 500 when the table is not
    empty and the message cannot be printed for the log line, with 200
    otherwise; a GET is never answered 500. *)
Theorem every_trigger_is_answered_once w ev :
  process w = Running -> is_trigger ev = true ->
  (exists answer, responses (step ev w) = responses w ++ [mkResponse (trigger_status ev w) answer]) /\
  process (step ev w) = Running /\
  (ev = GetTriggerSign -> trigger_status ev w <> 500).
Proof.
  intros Hrun Hev. unfold trigger_status.
  destruct (Nat.eqb (JsMap.size (connectedClients w)) 0) eqn:Hsize.
  - apply Nat.eqb_eq in Hsize. rewrite step_trigger_empty by done. simpl.
    split_and!; [by eexists | done | done].
  - apply Nat.eqb_neq in Hsize.
    destruct (to_string (trigger_message ev w)) as [text|e] eqn:Htext; simpl.
    + destruct (step_trigger w ev Hrun Hev Hsize text Htext) as (_ & Hr & _ & Hp).
      split_and!; [by eexists | done | done].
    + destruct ev; try discriminate; simpl in Htext.
      rewrite step_post_trigger by done.
      destruct (caught_500 "POST" _ e (entered "POST" w) Htext) as (Hr & Hp & _).
      split_and!; [by eexists | by rewrite Hp | done].
Qed.

Lemma every_trigger_is_answered_once_witness :
  map status_code
    (responses (run [PostTriggerSign (JObj [("message", JObj [("toString", JNull)])]);
                     GetTriggerSign] one_client)) = [500; 200] /\
  trigger_status GetTriggerSign one_client <> 500.
Proof.
  destruct (every_trigger_is_answered_once one_client GetTriggerSign eq_refl eq_refl)
    as (_ & _ & H).
  split; [reflexivity | exact (H eq_refl)].
Defined.

Lemma sign_result_returns_inv h socket data w :
  fst (on_signMessageResult h socket data w) = Normal tt -> well_formed_report data.
Proof.
  unfold on_signMessageResult, bind, lift, console_log, socket_emit. simpl.
  destruct (get_prop data "account") as [account|] eqn:Haccount; [|discriminate]. simpl.
  destruct (to_string account) as [account_text|] eqn:Hprint; [|discriminate]. simpl.
  destruct (get_prop data "message") as [message|] eqn:Hmessage; [|discriminate]. simpl.
  destruct (to_string message); [|discriminate]. simpl.
  destruct (signature_digest data) eqn:Hdigest; [|discriminate]. simpl.
  destruct (acknowledgement data) eqn:Hack; [|discriminate]. intros _.
  unfold acknowledgement, cbind in Hack. rewrite Hmessage in Hack.
  destruct message as [| | | |s| |]; try discriminate.
  destruct data as [| | | | | |props]; try discriminate.
  simpl in *. exists props, s. split; [done|]. split.
  { destruct (own_property props "message"); simpl in *; congruence. }
  injection Haccount as <-. split; [by exists account_text|].
  unfold signature_digest, cbind, get_prop in Hdigest.
  by destruct (default JUndefined (own_property props "signature")).
Qed.

Lemma sign_result_returns_iff h socket data w :
  fst (on_signMessageResult h socket data w) = Normal tt <-> well_formed_report data.
Proof.
  split; [apply sign_result_returns_inv|].
  intros (props & s & -> & Hm & Ha & Hs).
  by destruct (sign_result_returns h socket props s w Hm Ha Hs).
Qed.

Lemma settle_crashed r e :
  process (snd r) = Running -> process (settle r) = Crashed e -> fst r = Throw e.
Proof. destruct r as [[[]|e'] w]; simpl; intros H1 H2; congruence. Qed.

(** X10: the process is ended by an uncaught exception exactly when a
    connected socket with the listeners attached sends a [signMessageResult]
    packet whose payload is not a well-formed report; no other event, and no
    well-formed report, can crash the server. *)
Theorem crash_iff_malformed_report w ev :
  process w = Running ->
  (exists e, process (step ev w) = Crashed e) <->
  (exists h socket data,
     ev = Packet h "signMessageResult" data /\
     sockets w !! h = Some socket /\ connected socket = true /\
     listens socket "signMessageResult" = true /\
     ~ well_formed_report data).
Proof.
  intros Hrun.
  destruct handlers_keep_process as (Hp1 & Hp2 & Hp3 & Hp4 & Hp5 & Hp6 & _).
  split.
  - intros [e Hcrash].
    destruct ev as [id hs|h reason|h error|h name data| | | | |code error].
    + destruct (step_connection w id hs Hrun) as [(Hp & _) _]. congruence.
    + destruct (sockets w !! h) as [socket|] eqn:Hs;
        [|unfold step in Hcrash; rewrite Hrun, Hs in Hcrash; congruence].
      destruct (connected socket) eqn:Hc;
        [|unfold step in Hcrash; rewrite Hrun, Hs, Hc in Hcrash; congruence].
      destruct (step_disconnect w h reason socket Hrun Hs Hc) as (Hp & _). congruence.
    + destruct (sockets w !! h) as [socket|] eqn:Hs;
        [|unfold step in Hcrash; rewrite Hrun, Hs in Hcrash; congruence].
      destruct (step_socket_error w h error socket Hrun Hs) as (Hp & _). congruence.
    + unfold step in Hcrash. rewrite Hrun in Hcrash.
      destruct (sockets w !! h) as [socket|] eqn:Hs; [|congruence].
      destruct (connected socket) eqn:Hc; [|simpl in Hcrash; congruence].
      destruct (listens socket name) eqn:Hl; [|simpl in Hcrash; congruence].
      simpl in Hcrash.
      destruct (String.eqb name "clientMessage") eqn:Hname1.
      { simpl in Hcrash. congruence. }
      destruct (String.eqb name "signMessageResult") eqn:Hname2; [|congruence].
      apply String.eqb_eq in Hname2 as ->.
      exists h, socket, data. split_and!; try done.
      intros Hwf. apply (sign_result_returns_iff h socket data w) in Hwf.
      apply settle_crashed in Hcrash; [congruence|]. by rewrite (Hp5 h socket data w).
    + unfold step in Hcrash. rewrite Hrun, route_process, (Hp1 w) in Hcrash. congruence.
    + unfold step in Hcrash. rewrite Hrun, route_process, (Hp2 req_body w) in Hcrash.
      congruence.
    + unfold step in Hcrash. rewrite Hrun, route_process, (Hp3 w) in Hcrash. congruence.
    + unfold step in Hcrash. rewrite Hrun in Hcrash. simpl in Hcrash. congruence.
    + destruct (step_server_error w code error Hrun) as (Hp & _). congruence.
  - intros (h & socket & data & -> & Hs & Hc & Hl & Hbad).
    rewrite (step_sign_result w h socket data) by done.
    destruct (on_signMessageResult h socket data w) as [[[]|e] w1] eqn:Hrun'.
    + exfalso. apply Hbad. apply (sign_result_returns_iff h socket data w).
      by rewrite Hrun'.
    + by exists e.
Qed.

Lemma crash_iff_malformed_report_witness :
  let data := JObj [("account", JStr "0xabc"); ("signature", JStr "0x01")] in
  process one_client = Running /\
  exists e, process (step (Packet 0 "signMessageResult" data) one_client) = Crashed e.
Proof.
  split; [reflexivity|].
  apply (crash_iff_malformed_report one_client
           (Packet 0 "signMessageResult"
              (JObj [("account", JStr "0xabc"); ("signature", JStr "0x01")])) eq_refl).
  exists 0%nat, (welcomed_socket "A" sample_handshake),
    (JObj [("account", JStr "0xabc"); ("signature", JStr "0x01")]).
  split_and!; [reflexivity | reflexivity | reflexivity | reflexivity |].
  intros (props & s & Hdata & Hm & _). injection Hdata as <-. discriminate.
Defined.

Lemma substring_whole (s : string) (n : nat) :
  (String.length s <= n)%nat -> String.substring 0 n s = s.
Proof.
  revert n. induction s as [|c s IH]; intros [|n] H; simpl in *; try done; try lia.
  f_equal. apply IH. lia.
Qed.

Lemma substring_head (s : string) (n : nat) :
  (n <= String.length s)%nat ->
  exists rest, s = String.substring 0 n s +:+ rest /\
               String.length (String.substring 0 n s) = n.
Proof.
  revert n. induction s as [|c s IH]; intros [|n] H; simpl in *; try lia.
  - by exists EmptyString.
  - by exists (String c s).
  - destruct (IH n) as (rest & Hs & Hlen); [lia|].
    exists rest. split; [|by rewrite Hlen].
    change (String c (String.substring 0 n s) +:+ rest)
      with (String c (String.substring 0 n s +:+ rest)).
    by rewrite <- Hs.
Qed.

Lemma js_substring_from_start (s : string) (n : Z) :
  0 <= n ->
  js_substring s 0 n = String.substring 0 (Z.to_nat (Z.min n (js_length s))) s.
Proof.
  intros Hn. unfold js_substring, clamp, js_length.
  assert (Hlen : 0 <= Z.of_nat (String.length s)) by lia.
  replace (Z.max 0 (Z.min 0 (Z.of_nat (String.length s)))) with 0 by lia.
  replace (Z.max 0 (Z.min n (Z.of_nat (String.length s))))
    with (Z.min n (Z.of_nat (String.length s))) by lia.
  replace (Z.min 0 (Z.min n (Z.of_nat (String.length s)))) with 0 by lia.
  replace (Z.max 0 (Z.min n (Z.of_nat (String.length s))) - 0)
    with (Z.min n (Z.of_nat (String.length s))) by lia.
  done.
Qed.

(** X11: the acknowledgement quotes a message of at most 30 characters whole,
    and of a longer message exactly its first 30 characters followed by
    three dots. *)
Theorem acknowledgement_quotes_thirty (s : string) :
  (js_length s <= 30 ->
   ack_text s = "Signature received for message: " +:+ dquote +:+ s +:+ dquote) /\
  (30 < js_length s ->
   exists head rest,
     s = head +:+ rest /\ String.length head = 30%nat /\
     ack_text s =
       "Signature received for message: " +:+ dquote +:+ head +:+ "..." +:+ dquote).
Proof.
  unfold ack_text. rewrite js_substring_from_start by lia. unfold js_length. split.
  - intros Hlen. rewrite substring_whole by lia.
    destruct (Z.gtb_spec (Z.of_nat (String.length s)) 30); [lia|]. done.
  - intros Hlen.
    replace (Z.to_nat (Z.min 30 (Z.of_nat (String.length s)))) with 30%nat by lia.
    destruct (substring_head s 30) as (rest & Hs & Hhead); [lia|].
    exists (String.substring 0 30 s), rest. split; [done|]. split; [done|].
    destruct (Z.gtb_spec (Z.of_nat (String.length s)) 30); [done | lia].
Qed.

Lemma acknowledgement_quotes_thirty_witness :
  ack_text "Sign XYZ" = "Signature received for message: " +:+ dquote +:+ "Sign XYZ" +:+ dquote.
Proof.
  apply (proj1 (acknowledgement_quotes_thirty "Sign XYZ")). vm_compute. discriminate.
Defined.

(** * What the sockets are sent *)

Lemma sign_result_sockets h socket data w :
  sockets (snd (on_signMessageResult h socket data w)) = sockets w \/
  exists s, sockets (snd (on_signMessageResult h socket data w)) =
              alter (deliver (serverMessage (ack_text s))) h (sockets w).
Proof.
  unfold on_signMessageResult, bind, lift, console_log, socket_emit. simpl.
  destruct (get_prop data "account") as [account|]; [|by left]. simpl.
  destruct (to_string account); [|by left]. simpl.
  destruct (get_prop data "message") as [message|] eqn:Hm; [|by left]. simpl.
  destruct (to_string message); [|by left]. simpl.
  destruct (signature_digest data); [|by left]. simpl.
  unfold acknowledgement, cbind. rewrite Hm.
  destruct (string_receiver "data.message" message) as [s|]; [|by left].
  right. by exists s.
Qed.

Lemma sockets_unchanged w l : l = sockets w -> SocketsChange w l.
Proof. intros ->. apply Unchanged. Qed.

Lemma step_sockets ev w : SocketsChange w (sockets (step ev w)).
Proof.
  destruct (process w) eqn:Hrun;
    [|rewrite step_stopped; [by apply sockets_unchanged | congruence]..].
  destruct ev as [id hs|h reason|h error|h name data| |req_body| | |code error].
  - destruct (step_connection w id hs Hrun) as [_ Hstep].
    destruct (JsMap.has (connectedClients w) id); destruct Hstep as [_ ->];
      [apply TurnedAway | apply Accepted].
  - destruct (sockets w !! h) as [socket|] eqn:Hs;
      [|unfold step; rewrite Hrun, Hs; by apply sockets_unchanged].
    destruct (connected socket) eqn:Hc;
      [|unfold step; rewrite Hrun, Hs, Hc; by apply sockets_unchanged].
    destruct (step_disconnect w h reason socket Hrun Hs Hc) as (_ & -> & _).
    apply Closed.
  - destruct (sockets w !! h) as [socket|] eqn:Hs;
      [|unfold step; rewrite Hrun, Hs; by apply sockets_unchanged].
    destruct (step_socket_error w h error socket Hrun Hs) as (_ & -> & _).
    by apply sockets_unchanged.
  - unfold step. rewrite Hrun.
    destruct (sockets w !! h) as [socket|] eqn:Hs; [|by apply sockets_unchanged].
    destruct (connected socket && listens socket name) eqn:Hcl; [|by apply sockets_unchanged].
    destruct (String.eqb name "clientMessage");
      [rewrite settle_sockets; by apply sockets_unchanged|].
    destruct (String.eqb name "signMessageResult") eqn:Hname; [|by apply sockets_unchanged].
    apply String.eqb_eq in Hname as ->. apply andb_true_iff in Hcl as [_ Hl].
    rewrite settle_sockets.
    destruct (sign_result_sockets h socket data w) as [-> | [s ->]];
      [by apply sockets_unchanged | by apply Acknowledged with socket].
  - unfold step. rewrite Hrun, route_sockets. by apply sockets_unchanged.
  - destruct (Nat.eqb (JsMap.size (connectedClients w)) 0) eqn:Hsize.
    + apply Nat.eqb_eq in Hsize.
      rewrite (step_trigger_empty w (PostTriggerSign req_body)) by done.
      by apply sockets_unchanged.
    + apply Nat.eqb_neq in Hsize.
      destruct (to_string (chosen_message req_body)) as [text|e] eqn:Htext.
      * destruct (step_trigger w (PostTriggerSign req_body) Hrun eq_refl Hsize text Htext)
          as (-> & _).
        apply Broadcast. by exists text.
      * rewrite step_post_trigger by done.
        destruct (caught_500 "POST" _ e (entered "POST" w) Htext) as (_ & _ & _ & ->).
        by apply sockets_unchanged.
  - destruct (Nat.eqb (JsMap.size (connectedClients w)) 0) eqn:Hsize.
    + apply Nat.eqb_eq in Hsize.
      rewrite (step_trigger_empty w GetTriggerSign) by done. by apply sockets_unchanged.
    + apply Nat.eqb_neq in Hsize.
      destruct (step_trigger w GetTriggerSign Hrun eq_refl Hsize _ eq_refl) as (-> & _).
      apply Broadcast. by eexists.
  - unfold step. rewrite Hrun, settle_sockets. by apply sockets_unchanged.
  - unfold step. rewrite Hrun, settle_sockets. apply sockets_unchanged.
    unfold on_server_error, bind, the_PORT. simpl.
    by destruct (bool_decide (code = Some "EADDRINUSE")).
Qed.

Lemma ack_is_not_the_greeting s : serverMessage (ack_text s) <> greeting.
Proof.
  unfold greeting, ack_text. intros H. injection H as H. discriminate.
Qed.

Lemma received_deliver ev s :
  received (deliver ev s) = received s \/ received (deliver ev s) = received s ++ [ev].
Proof. unfold deliver. destruct (connected s); simpl; auto. Qed.

Lemma greeted_once_deliver ev s :
  ev <> greeting ->
  ((exists message id, ev = triggerSign message id) \/ listeners s = all_listeners) ->
  greeted_once s -> greeted_once (deliver ev s).
Proof.
  intros Hev Hkind Hs.
  destruct (deliver_keeps ev s) as (_ & _ & _).
  assert (Hl : listeners (deliver ev s) = listeners s).
  { unfold deliver. by destruct (connected s). }
  destruct (received_deliver ev s) as [Hr|Hr].
  { unfold greeted_once. by rewrite Hl, Hr. }
  destruct Hs as [[Hnone Hall] | [Hfour (rest & Hrest & Hfresh)]].
  - destruct Hkind as [Htrigger | Hfour]; [|rewrite Hnone in Hfour; discriminate].
    left. rewrite Hl, Hr. split; [done|].
    intros ev' Hin. apply elem_of_app in Hin as [Hin|Hin]; [by apply Hall|].
    by apply list_elem_of_singleton in Hin as ->.
  - right. rewrite Hl, Hr. split; [done|]. exists (rest ++ [ev]).
    split; [by rewrite Hrest|].
    intros Hin. apply elem_of_app in Hin as [Hin|Hin]; [done|].
    apply list_elem_of_singleton in Hin. by apply Hev.
Qed.

Lemma greeted_once_close s : greeted_once s -> greeted_once (close s).
Proof. done. Qed.

Lemma greeted_once_step ev w :
  Forall greeted_once (sockets w) -> Forall greeted_once (sockets (step ev w)).
Proof.
  intros Hall.
  destruct (step_sockets ev w) as [ |id hs|id hs|h|message id Hprint|h socket s Hs Hl].
  - done.
  - apply Forall_app. split; [done|]. apply Forall_singleton.
    right. split; [done|]. exists []. split; [done | apply not_elem_of_nil].
  - apply Forall_app. split; [done|]. apply Forall_singleton.
    left. split; [done|]. intros ev' Hin. inversion Hin.
  - apply Forall_lookup. intros i s Hi.
    destruct (decide (h = i)) as [->|Hne].
    + rewrite list_lookup_alter_eq in Hi.
      destruct (sockets w !! i) as [s0|] eqn:Hs0; [|discriminate].
      injection Hi as <-. apply greeted_once_close.
      by apply (proj1 (Forall_lookup _ _) Hall i).
    + rewrite list_lookup_alter_ne in Hi by done.
      by apply (proj1 (Forall_lookup _ _) Hall i).
  - apply Forall_fmap. eapply Forall_impl; [exact Hall|].
    intros s Hs. apply greeted_once_deliver; [discriminate | | done].
    left. by eexists _, _.
  - apply Forall_lookup. intros i s' Hi.
    destruct (decide (h = i)) as [->|Hne].
    + rewrite list_lookup_alter_eq, Hs in Hi. injection Hi as <-.
      pose proof (proj1 (Forall_lookup _ _) Hall i socket Hs) as Hsocket.
      apply greeted_once_deliver; [apply ack_is_not_the_greeting | | done].
      right. destruct Hsocket as [[Hnone _] | [Hfour _]]; [|done].
      unfold listens in Hl. rewrite Hnone in Hl.
      apply bool_decide_eq_true in Hl. inversion Hl.
    + rewrite list_lookup_alter_ne in Hi by done.
      by apply (proj1 (Forall_lookup _ _) Hall i).
Qed.

Lemma greeted_once_reachable w : reachable w -> Forall greeted_once (sockets w).
Proof.
  intros (clock & env & evs & ->).
  assert (H : Forall greeted_once (sockets (initial clock env))) by apply Forall_nil_2.
  revert H. generalize (initial clock env).
  induction evs as [|ev evs IH]; intros w H; [done|].
  rewrite run_cons. apply IH. by apply greeted_once_step.
Qed.

(** X12: in every reachable world, a session that was registered has been
    sent the welcome exactly once, as the first event it received, and
    carries the four listeners; a session that connected under an id already
    in the table has no listener and has been sent nothing but broadcasts. *)
Theorem every_session_is_greeted_once w h s :
  reachable w -> sockets w !! h = Some s -> greeted_once s.
Proof.
  intros Hreach Hs. by apply (proj1 (Forall_lookup _ _) (greeted_once_reachable w Hreach) h).
Qed.

Lemma every_session_is_greeted_once_witness :
  let w := run [PostTriggerSign (JObj [("message", JStr "m1")]);
                Packet 0 "signMessageResult"
                  (JObj [("account", JStr "0xabc"); ("message", JStr "m1");
                         ("signature", JStr "0x01")])] one_client in
  let s := mkSocket "A" sample_handshake true all_listeners
             [greeting; triggerSign (JStr "m1") "1700000000100";
              serverMessage (ack_text "m1")] in
  sockets w !! 0%nat = Some s /\ greeted_once s.
Proof.
  intros w s.
  assert (Hs : sockets w !! 0%nat = Some s) by (vm_compute; reflexivity).
  split; [exact Hs|].
  apply (every_session_is_greeted_once w 0 s); [|exact Hs].
  apply reachable_run. exact reachable_one_client.
Defined.

Lemma carries_printable_deliver ev s :
  (forall message id, ev = triggerSign message id -> printable message) ->
  carries_printable s -> carries_printable (deliver ev s).
Proof.
  intros Hev Hs message id Hin.
  destruct (received_deliver ev s) as [Hr|Hr]; rewrite Hr in Hin; [by eapply Hs|].
  apply elem_of_app in Hin as [Hin|Hin]; [by eapply Hs|].
  apply list_elem_of_singleton in Hin. by eapply Hev.
Qed.

Lemma carries_printable_close s : carries_printable s -> carries_printable (close s).
Proof. done. Qed.

Lemma carries_printable_step ev w :
  Forall carries_printable (sockets w) -> Forall carries_printable (sockets (step ev w)).
Proof.
  intros Hall.
  destruct (step_sockets ev w) as [ |id hs|id hs|h|message id Hprint|h socket s Hs Hl].
  - done.
  - apply Forall_app. split; [done|]. apply Forall_singleton.
    intros m i Hin. apply list_elem_of_singleton in Hin. discriminate.
  - apply Forall_app. split; [done|]. apply Forall_singleton.
    intros m i Hin. inversion Hin.
  - apply Forall_lookup. intros i s Hi.
    destruct (decide (h = i)) as [->|Hne].
    + rewrite list_lookup_alter_eq in Hi.
      destruct (sockets w !! i) as [s0|] eqn:Hs0; [|discriminate].
      injection Hi as <-. apply carries_printable_close.
      by apply (proj1 (Forall_lookup _ _) Hall i).
    + rewrite list_lookup_alter_ne in Hi by done.
      by apply (proj1 (Forall_lookup _ _) Hall i).
  - apply Forall_fmap. eapply Forall_impl; [exact Hall|].
    intros s Hs. apply carries_printable_deliver; [|done].
    intros m i Heq. by injection Heq as <- _.
  - apply Forall_lookup. intros i s' Hi.
    destruct (decide (h = i)) as [->|Hne].
    + rewrite list_lookup_alter_eq, Hs in Hi. injection Hi as <-.
      apply carries_printable_deliver; [discriminate|].
      by apply (proj1 (Forall_lookup _ _) Hall i).
    + rewrite list_lookup_alter_ne in Hi by done.
      by apply (proj1 (Forall_lookup _ _) Hall i).
Qed.

Lemma carries_printable_reachable w :
  reachable w -> Forall carries_printable (sockets w).
Proof.
  intros (clock & env & evs & ->).
  assert (H : Forall carries_printable (sockets (initial clock env))) by apply Forall_nil_2.
  revert H. generalize (initial clock env).
  induction evs as [|ev evs IH]; intros w H; [done|].
  rewrite run_cons. apply IH. by apply carries_printable_step.
Qed.

(** X13: the relay never broadcasts a message it could not print: in every
    reachable world, the message of every [triggerSign] event a socket
    received converts to a string. *)
Theorem broadcasts_are_printable w h s message id :
  reachable w -> sockets w !! h = Some s ->
  triggerSign message id ∈ received s -> printable message.
Proof.
  intros Hreach Hs.
  apply (proj1 (Forall_lookup _ _) (carries_printable_reachable w Hreach) h s Hs).
Qed.

Lemma broadcasts_are_printable_witness :
  let w := step (PostTriggerSign (JObj [("message", JArr [JNum 1; JNull; JStr "x"])]))
             one_client in
  let s := mkSocket "A" sample_handshake true all_listeners
             [greeting; triggerSign (JArr [JNum 1; JNull; JStr "x"]) "1700000000100"] in
  sockets w !! 0%nat = Some s /\ printable (JArr [JNum 1; JNull; JStr "x"]).
Proof.
  intros w s.
  assert (Hs : sockets w !! 0%nat = Some s) by (vm_compute; reflexivity).
  split; [exact Hs|].
  apply (broadcasts_are_printable w 0 s _ "1700000000100"); [|exact Hs|].
  - apply reachable_step. exact reachable_one_client.
  - apply list_elem_of_further, list_elem_of_here.
Defined.

(** * The browser agent's log *)

Module FrontendFacts.
Import Frontend.

Lemma key_name_eqb k1 k2 :
  String.eqb (key_name k1) (key_name k2) = true <-> k1 = k2.
Proof. destruct k1, k2; simpl; split; (done || discriminate). Qed.

Lemma find_set_same (m : Status) k v :
  List.find (fun entry => String.eqb (fst entry) k) (JsMap.set m k v) = Some (k, v).
Proof.
  induction m as [|[k' v'] m IH]; simpl.
  - by rewrite String.eqb_refl.
  - destruct (String.eqb k' k) eqn:E; simpl; rewrite E; [|done].
    apply String.eqb_eq in E as ->. done.
Qed.

Lemma find_set_other (m : Status) k k' v :
  String.eqb k k' = false ->
  List.find (fun entry => String.eqb (fst entry) k') (JsMap.set m k v) =
  List.find (fun entry => String.eqb (fst entry) k') m.
Proof.
  intros Hne. induction m as [|[k0 v0] m IH]; simpl.
  - by rewrite Hne.
  - destruct (String.eqb k0 k) eqn:E; simpl.
    + apply String.eqb_eq in E as ->. by rewrite Hne.
    + by rewrite IH.
Qed.

Lemma logs_updateStatus_same key message prev :
  logs (updateStatus key message prev) key =
    Some (default [] (logs prev key) ++ [message]).
Proof. unfold logs at 1, updateStatus. by rewrite find_set_same. Qed.

Lemma logs_updateStatus_other key key' message prev :
  key <> key' -> logs (updateStatus key message prev) key' = logs prev key'.
Proof.
  intros Hne. unfold logs, updateStatus. rewrite find_set_other; [done|].
  destruct (String.eqb (key_name key) (key_name key')) eqn:E; [|done].
  by apply key_name_eqb in E.
Qed.

Lemma logs_updates key calls status :
  logs (updates calls status) key =
    match lines_for key calls with
    | [] => logs status key
    | lines => Some (default [] (logs status key) ++ lines)
    end.
Proof.
  revert status. induction calls as [|[k m] calls IH]; intros status; [done|].
  unfold updates in *. simpl. rewrite IH. unfold lines_for. simpl.
  destruct (String.eqb (key_name k) (key_name key)) eqn:E.
  - apply key_name_eqb in E as ->. rewrite logs_updateStatus_same. simpl.
    unfold fmap.
    destruct (list_fmap _ _ snd (List.filter _ calls)) as [|l ls]; [done|].
    by rewrite <- app_assoc.
  - rewrite logs_updateStatus_other; [done|].
    intros ->. rewrite (proj2 (key_name_eqb key key) eq_refl) in E. discriminate.
Qed.

Lemma receive_line ev line status :
  socket_line ev = Normal line ->
  receive ev status = Normal (updateStatus socket_key line status).
Proof.
  destruct ev as [message|message id]; simpl.
  - intros [= <-]. done.
  - unfold on_triggerSign, cbind. simpl.
    destruct (to_string message); [|discriminate]. by intros [= <-].
Qed.

Lemma receive_all_lines evs status :
  Forall (fun ev => forall message id, ev = triggerSign message id -> printable message) evs ->
  exists lines,
    Forall2 (fun ev line => socket_line ev = Normal line) evs lines /\
    receive_all evs status = Normal (updates ((fun line => (socket_key, line)) <$> lines) status).
Proof.
  intros Hall. revert status. induction Hall as [|ev evs Hev Hall IH]; intros status.
  - exists []. split; [constructor | done].
  - assert (Hline : exists line, socket_line ev = Normal line).
    { destruct ev as [message|message id]; simpl; [by eexists|].
      destruct (Hev message id eq_refl) as [text ->]. by eexists. }
    destruct Hline as [line Hline].
    destruct (IH (updateStatus socket_key line status)) as (lines & Hlines & Hrun).
    exists (line :: lines). split; [by constructor|].
    simpl. rewrite (receive_line ev line status Hline). simpl. exact Hrun.
Qed.

Lemma lines_for_socket lines :
  lines_for socket_key ((fun line => (socket_key, line)) <$> lines) = lines.
Proof.
  unfold lines_for. induction lines as [|l lines IH]; [done|].
  simpl. f_equal. exact IH.
Qed.
End FrontendFacts.

(** X14: [updateStatus] only ever appends: after any sequence of calls, the
    lines stored under a key are the lines that were there followed by the
    messages of the calls made with that key, in call order, and a key no
    call used is as it was; [LogList] of a status that started empty shows
    exactly those messages, numbered from 0, and nothing when there is
    none. *)
Theorem updateStatus_accumulates key calls status :
  Frontend.logs (Frontend.updates calls status) key =
    match Frontend.lines_for key calls with
    | [] => Frontend.logs status key
    | lines => Some (default [] (Frontend.logs status key) ++ lines)
    end /\
  Frontend.LogList (Frontend.logs (Frontend.updates calls []) key) =
    match Frontend.lines_for key calls with
    | [] => None
    | lines => Some (imap (fun i msg => (i, msg)) lines)
    end.
Proof.
  split; [apply FrontendFacts.logs_updates|].
  rewrite FrontendFacts.logs_updates.
  by destruct (Frontend.lines_for key calls).
Qed.

(** X15: the browser agent can log everything the relay sends: feeding the
    events a registered socket received, in order, to the client's
    [serverMessage] and [triggerSign] listeners never throws, and the socket
    log gets one line per event, the first being the welcome. *)
Theorem client_log_follows_the_relay w h s :
  reachable w -> sockets w !! h = Some s -> listeners s = all_listeners ->
  exists status lines,
    Frontend.receive_all (received s) [] = Normal status /\
    Frontend.logs status Frontend.socket_key =
      Some ("Server: Connected to MetaMask automation server" :: lines) /\
    S (length lines) = length (received s).
Proof.
  intros Hreach Hs Hlisteners.
  pose proof (proj1 (Forall_lookup _ _) (greeted_once_reachable w Hreach) h s Hs) as Hgreet.
  pose proof (proj1 (Forall_lookup _ _) (carries_printable_reachable w Hreach) h s Hs)
    as Hprint.
  destruct Hgreet as [[Hnone _] | [_ (rest & Hrest & _)]];
    [rewrite Hnone in Hlisteners; discriminate|].
  destruct (FrontendFacts.receive_all_lines (received s) []) as (lines & Hlines & Hrun).
  { apply Forall_forall. intros ev Hin message id ->. by apply (Hprint message id). }
  rewrite Hrest in Hlines. apply Forall2_cons_inv_l in Hlines
    as (line & lines' & Hline & Hlines' & ->).
  simpl in Hline. injection Hline as <-.
  eexists _, lines'. split; [exact Hrun|]. split.
  - rewrite FrontendFacts.logs_updates, FrontendFacts.lines_for_socket. done.
  - rewrite Hrest. simpl. f_equal. symmetry. by eapply Forall2_length.
Qed.

Lemma client_log_follows_the_relay_witness :
  exists status lines,
    Frontend.receive_all
      [greeting; triggerSign (JStr "m1") "1700000000100"] [] = Normal status /\
    Frontend.logs status Frontend.socket_key =
      Some ("Server: Connected to MetaMask automation server" :: lines) /\
    S (length lines) = 2%nat.
Proof.
  assert (Hreach : reachable (step (PostTriggerSign (JObj [("message", JStr "m1")]))
                                one_client)).
  { apply reachable_step. exact reachable_one_client. }
  exact (client_log_follows_the_relay _ 0 _ Hreach eq_refl eq_refl).
Defined.

Lemma step_http_running ev w :
  process w = Running -> is_http ev = true -> process (step ev w) = Running.
Proof.
  intros Hrun Hev.
  destruct handlers_keep_process as (Hp1 & Hp2 & Hp3 & _).
  destruct ev; try discriminate; unfold step; rewrite Hrun, route_process.
  - by rewrite (Hp1 w).
  - by rewrite (Hp2 req_body w).
  - by rewrite (Hp3 w).
Qed.

(** X16: no HTTP request changes what the status route reports: after a
    status or trigger request, whatever its body and outcome, a status
    request gets the answer it would have got before. *)
Theorem requests_do_not_change_status w ev :
  process w = Running -> is_http ev = true ->
  status_answer (step ev w) = status_answer w.
Proof.
  intros Hrun Hev.
  rewrite !status_answer_running by (done || by apply step_http_running).
  assert (Htable : connectedClients (step ev w) = connectedClients w).
  { apply step_quiet. by destruct ev. }
  by rewrite Htable.
Qed.

Lemma requests_do_not_change_status_witness :
  status_answer (step (PostTriggerSign (JObj [("message", JObj [("toString", JNull)])]))
                   two_clients)
  = status_answer two_clients.
Proof.
  exact (requests_do_not_change_status two_clients
           (PostTriggerSign (JObj [("message", JObj [("toString", JNull)])]))
           eq_refl eq_refl).
Defined.

Section ButtonFacts.
Variable JSON_parse : string -> Completion JsValue.
Variable trim : string -> string.

(** X17: a click on the trigger button adds exactly one line to the socket
    log, whatever [fetch] gives back: the line starts with "Backend: " when
    the answer is a 2xx with a body that parses and whose message prints,
    and with "Backend Error: " in every other case; the lines already
    logged are kept. *)
Theorem button_logs_one_line fetched status :
  let line := Frontend.button_line JSON_parse trim fetched in
  Frontend.logs (Frontend.button JSON_parse trim fetched status) Frontend.socket_key =
    Some (default [] (Frontend.logs status Frontend.socket_key) ++ [line]) /\
  Frontend.logs (Frontend.button JSON_parse trim fetched status) Frontend.sign_key =
    Frontend.logs status Frontend.sign_key /\
  ((exists shown, line = "Backend: " +:+ shown /\
      exists res, fetched = Normal res /\ Frontend.res_ok res = true) \/
   (exists reason, line = "Backend Error: " +:+ reason)).
Proof.
  intros line. split; [apply FrontendFacts.logs_updateStatus_same|].
  split; [by apply FrontendFacts.logs_updateStatus_other|].
  unfold line, Frontend.button_line.
  destruct fetched as [res|e]; simpl; [|right; by eexists].
  destruct (Frontend.button_chain JSON_parse trim res) as [shown|e] eqn:Hchain;
    [|right; by eexists].
  left. unfold Frontend.button_chain in Hchain.
  destruct (Frontend.res_ok res) eqn:Hok; simpl in Hchain; [|discriminate].
  unfold cbind in Hchain.
  destruct (Frontend.res_text res) as [body|]; [|discriminate].
  destruct (String.eqb (trim body) EmptyString); [discriminate|].
  unfold Frontend.parsed_line, cbind in Hchain.
  destruct (JSON_parse body) as [data|]; [|discriminate].
  destruct (get_prop data "message") as [message|]; [|discriminate].
  destruct (to_string message) as [text|]; [|discriminate].
  injection Hchain as <-. exists text. split; [done|]. by exists res.
Qed.

(** X18: the relay never answers the button's request with 500: while no
    client is registered it answers 404, the body is not read and the line
    logged is "Backend Error: Server responded with status: 404"; otherwise
    it answers 200 and every connected socket receives a [triggerSign] event
    carrying "Sign this message from backend", which the client logs as
    "Received sign trigger: Sign this message from backend". *)
Theorem button_request_outcome w :
  process w = Running ->
  let w' := step (PostTriggerSign Frontend.button_body) w in
  let event := triggerSign (JStr "Sign this message from backend")
                 (pretty (clock w (ticks w))) in
  exists answer,
    responses w' = responses w ++ [answer] /\
    ((JsMap.size (connectedClients w) = 0%nat /\ status_code answer = 404 /\
      sockets w' = sockets w /\
      forall text,
        Frontend.button_line JSON_parse trim
          (Normal (Frontend.mkFetchResponse (status_code answer) text))
        = "Backend Error: Server responded with status: 404") \/
     (JsMap.size (connectedClients w) <> 0%nat /\ status_code answer = 200 /\
      sockets w' = deliver event <$> sockets w /\
      Frontend.socket_line event =
        Normal "Received sign trigger: Sign this message from backend")).
Proof.
  intros Hrun w' event.
  destruct (Nat.eqb (JsMap.size (connectedClients w)) 0) eqn:Hsize.
  - apply Nat.eqb_eq in Hsize. eexists. unfold w'.
    rewrite (step_trigger_empty w (PostTriggerSign Frontend.button_body) Hrun eq_refl Hsize).
    split; [reflexivity|]. left. by split_and!.
  - apply Nat.eqb_neq in Hsize.
    destruct (step_trigger w (PostTriggerSign Frontend.button_body) Hrun eq_refl Hsize
                "Sign this message from backend" eq_refl) as (Hs & Hr & _).
    eexists. split; [exact Hr|]. right. by split_and!.
Qed.
End ButtonFacts.

Lemma button_request_outcome_witness :
  exists answer,
    responses (step (PostTriggerSign Frontend.button_body) one_client) =
      responses one_client ++ [answer] /\
    status_code answer = 200.
Proof.
  destruct (button_request_outcome (fun _ => Normal JNull) (fun text => text)
              one_client eq_refl) as (answer & Hr & [(Hsize & _) | (_ & Hcode & _)]).
  - exfalso. revert Hsize. vm_compute. discriminate.
  - exists answer. split; [exact Hr | exact Hcode].
Defined.

(** X19: the count the connection handler logs is read before the session
    is registered: a connection logs the id with the address and then the
    size of the table as it was; a fresh id is then registered, so that the
    table holds one client more than the line says, and an id already in the
    table is reported as a duplicate. *)
Theorem connection_logs_the_count_before w id hs :
  process w = Running ->
  let w' := step (Connection id hs) w in
  let n := JsMap.size (connectedClients w) in
  exists tail,
    console w' =
      console w ++
      [(Stdout, [PStr ("Client connected: " +:+ id +:+ " (IP: " +:+ address hs +:+ ")")]);
       (Stdout, [PStr ("Connected clients: " +:+ pretty n)])] ++ tail /\
    (JsMap.has (connectedClients w) id = false ->
     tail = [] /\ JsMap.size (connectedClients w') = S n) /\
    (JsMap.has (connectedClients w) id = true ->
     tail = [(Stdout, [PStr ("Duplicate connection attempt from " +:+ id)])] /\
     JsMap.size (connectedClients w') = n).
Proof.
  intros Hrun w' n. unfold w', step. rewrite Hrun.
  unfold on_connection, bind, Date_now, console_log, clients_size, clients_has,
    clients_set, socket_emit, socket_on. simpl.
  destruct (JsMap.has (connectedClients w) id) eqn:Hhas; simpl.
  - eexists. split; [by rewrite <- !app_assoc|]. split; [discriminate|done].
  - exists []. split; [by rewrite <- !app_assoc|]. split; [|discriminate].
    intros _. split; [done|]. by apply JsMapFacts.size_set_absent.
Qed.

Lemma connection_logs_the_count_before_witness :
  exists tail,
    console (step (Connection "B" sample_handshake) one_client) =
      console one_client ++
      [(Stdout, [PStr ("Client connected: B (IP: " +:+ address sample_handshake +:+ ")")]);
       (Stdout, [PStr "Connected clients: 1"])] ++ tail.
Proof.
  destruct (connection_logs_the_count_before one_client "B" sample_handshake eq_refl)
    as (tail & Hconsole & _).
  exists tail. exact Hconsole.
Defined.

(** X20: the count logged when a session goes is read after its record was
    removed: a disconnection, and a socket error, of a socket that carries
    the listener logs two lines, the second giving the size of the table as
    it is after the event. *)
Theorem removal_logs_the_count_after w h socket :
  process w = Running -> sockets w !! h = Some socket -> connected socket = true ->
  (forall reason, listens socket "disconnect" = true ->
     let w' := step (Disconnect h reason) w in
     console w' =
       console w ++
       [(Stdout, [PStr ("Client disconnected: " +:+ sock_id socket +:+
                        " (Reason: " +:+ reason +:+ ")")]);
        (Stdout, [PStr ("Remaining clients: " +:+
                        pretty (JsMap.size (connectedClients w')))])]) /\
  (forall error, listens socket "error" = true ->
     let w' := step (SocketError h error) w in
     console w' =
       console w ++
       [(Stderr, [PStr ("Socket error for " +:+ sock_id socket +:+ ":"); PErr error]);
        (Stdout, [PStr ("Remaining clients after error: " +:+
                        pretty (JsMap.size (connectedClients w')))])]).
Proof.
  intros Hrun Hs Hconn. split.
  - intros reason Hl w'. unfold w', step. rewrite Hrun, Hs, Hconn, Hl.
    unfold on_disconnect, bind, console_log, clients_delete, clients_size. simpl.
    by rewrite <- app_assoc.
  - intros error Hl w'. unfold w', step. rewrite Hrun, Hs, Hconn, Hl.
    unfold on_error, bind, console_log, console_error, clients_delete, clients_size. simpl.
    by rewrite <- app_assoc.
Qed.

Lemma removal_logs_the_count_after_witness :
  console (step (Disconnect 0 "transport close") one_client) =
    console one_client ++
    [(Stdout, [PStr "Client disconnected: A (Reason: transport close)"]);
     (Stdout, [PStr "Remaining clients: 0"])].
Proof.
  exact (proj1 (removal_logs_the_count_after one_client 0
                  (welcomed_socket "A" sample_handshake) eq_refl eq_refl eq_refl)
           "transport close" eq_refl).
Defined.

(** X21: the [listen] callback and the [clientMessage] listener only print:
    the first adds two lines that name the port, the second at most one line,
    whatever the packet carries, and neither changes the table, the sockets,
    the responses, the clock or the state of the process. *)
Theorem listening_and_client_messages_only_print w ev :
  process w = Running ->
  ev = Listening \/ (exists h data, ev = Packet h "clientMessage" data) ->
  exists lines,
    step ev w = with_console (fun c => c ++ lines) w /\
    (ev = Listening ->
     lines = [(Stdout, [PStr ("Server is running on port " +:+ PORT w)]);
              (Stdout, [PStr ("Open http://localhost:" +:+ PORT w +:+
                              " to view the MetaMask demo")])]) /\
    (ev <> Listening -> (length lines <= 1)%nat).
Proof.
  intros Hrun [-> | (h & data & ->)]; unfold step; rewrite Hrun.
  - eexists. split; [|split; [reflexivity | done]].
    unfold on_listening, bind, the_PORT, console_log. simpl.
    destruct w. unfold with_console. simpl. by rewrite <- app_assoc.
  - destruct (sockets w !! h) as [socket|] eqn:Hs.
    + destruct (connected socket && listens socket "clientMessage").
      * eexists. split; [reflexivity|]. split; [discriminate | simpl; lia].
      * exists []. split; [|split; [discriminate | simpl; lia]].
        destruct w. unfold with_console. simpl. by rewrite app_nil_r.
    + exists []. split; [|split; [discriminate | simpl; lia]].
      destruct w. unfold with_console. simpl. by rewrite app_nil_r.
Qed.

Lemma listening_and_client_messages_only_print_witness :
  exists lines,
    step (Packet 0 "clientMessage" (JObj [("toString", JNum 1)])) one_client =
      with_console (fun c => c ++ lines) one_client /\
    (length lines <= 1)%nat.
Proof.
  destruct (listening_and_client_messages_only_print one_client
              (Packet 0 "clientMessage" (JObj [("toString", JNum 1)])) eq_refl)
    as (lines & Hstep & _ & Hlen).
  - right. by eexists _, _.
  - exists lines. split; [exact Hstep | apply Hlen; discriminate].
Defined.

(** X22: the relay broadcasts messages whose signature report it cannot
    acknowledge: a POST whose chosen message prints is broadcast to every
    connected socket; when a client that carries the listener answers with a
    report built as [signMessage] builds it, the relay acknowledges it if
    the message is a string and is ended by the uncaught exception of the
    listener if it is anything else. *)
Theorem broadcast_echo_is_acknowledged_iff_string
  w req_body h socket account signature timestamp :
  process w = Running -> JsMap.size (connectedClients w) <> 0%nat ->
  printable (chosen_message req_body) ->
  sockets w !! h = Some socket -> connected socket = true ->
  listens socket "signMessageResult" = true ->
  let m := chosen_message req_body in
  let event := triggerSign m (pretty (clock w (ticks w))) in
  let w1 := step (PostTriggerSign req_body) w in
  let w2 := step (Packet h "signMessageResult"
                    (Frontend.report account m signature timestamp)) w1 in
  (process w1 = Running /\
   sockets w1 !! h = Some (deliver event socket) /\
   received (deliver event socket) = received socket ++ [event]) /\
  (forall s, Frontend.sign_argument m = JStr s ->
     process w2 = Running /\
     exists socket2,
       sockets w2 !! h = Some socket2 /\
       received socket2 = received socket ++ [event; serverMessage (ack_text s)]) /\
  ((forall s, Frontend.sign_argument m <> JStr s) -> exists e, process w2 = Crashed e).
Proof.
  intros Hrun Hsize [text Htext] Hs Hc Hl m event w1 w2.
  destruct (step_trigger w (PostTriggerSign req_body) Hrun eq_refl Hsize text Htext)
    as (Hsock & _ & _ & Hrun1).
  simpl in Hsock. fold m event w1 in Hsock. fold w1 in Hrun1.
  assert (Hs1 : sockets w1 !! h = Some (deliver event socket)).
  { by rewrite Hsock, list_lookup_fmap, Hs. }
  assert (Hrec : received (deliver event socket) = received socket ++ [event]).
  { unfold deliver. by rewrite Hc. }
  assert (Hc1 : connected (deliver event socket) = true).
  { by rewrite (proj1 (proj2 (deliver_keeps event socket))). }
  assert (Hl1 : listens (deliver event socket) "signMessageResult" = true).
  { unfold deliver. by rewrite Hc. }
  split; [done|]. unfold w2.
  rewrite (step_sign_result w1 h (deliver event socket) _ Hrun1 Hs1 Hc1 Hl1).
  split.
  - intros s Hm.
    destruct (sign_result_returns h (deliver event socket)
                [("account", JStr account); ("message", Frontend.sign_argument m);
                 ("signature", JStr signature); ("timestamp", JStr timestamp)] s w1)
      as (Hr & Hsock2 & Hp).
    { simpl. by rewrite Hm. }
    { by exists account. }
    { done. }
    unfold Frontend.report.
    destruct (on_signMessageResult _ _ _ w1) as [[[]|e] w'] eqn:E; simpl in *; [|done].
    split; [congruence|].
    exists (deliver (serverMessage (ack_text s)) (deliver event socket)).
    split; [by rewrite Hsock2, list_lookup_alter_eq, Hs1|].
    unfold deliver at 1. rewrite Hc1. simpl. rewrite Hrec. by rewrite <- app_assoc.
  - intros Hbad.
    destruct (sign_result_throws h (deliver event socket)
                (Frontend.report account m signature timestamp) w1) as (Hthrow & _).
    { apply acknowledgement_throws. intros s Hget. apply (Hbad s).
      unfold Frontend.report in Hget. simpl in Hget. by injection Hget. }
    destruct (on_signMessageResult _ _ _ w1) as [[[]|e] w'] eqn:E; simpl in *; [done|].
    by exists e.
Qed.

Lemma broadcast_echo_is_acknowledged_iff_string_witness :
  let req_body := JObj [("message", JNum 42)] in
  let w1 := step (PostTriggerSign req_body) one_client in
  process w1 = Running /\
  exists e,
    process (step (Packet 0 "signMessageResult"
                     (Frontend.report "0xabc" (JNum 42) "0x01" "2023-11-14T22:13:20.000Z"))
               w1) = Crashed e.
Proof.
  assert (Hsize : JsMap.size (connectedClients one_client) <> 0%nat) by (vm_compute; lia).
  assert (Hprint : printable (chosen_message (JObj [("message", JNum 42)]))).
  { exists "42". reflexivity. }
  destruct (broadcast_echo_is_acknowledged_iff_string one_client
              (JObj [("message", JNum 42)]) 0 (welcomed_socket "A" sample_handshake)
              "0xabc" "0x01" "2023-11-14T22:13:20.000Z"
              eq_refl Hsize Hprint eq_refl eq_refl eq_refl)
    as ((Hrun1 & _) & _ & Hcrash).
  split; [exact Hrun1|]. apply Hcrash. intros s. discriminate.
Defined.
